(** * Course pipeline: transcript segmentation, title and quiz generation

    A shallow embedding of [modules.py], [quizzes.py], [transcriber.py] and
    the two data routes of [main.py].

    Conventions of the embedding.
    - A Python [str] is a [string]; each character stands for one code point
      (the first 256 of them).  [isspace] is Python's [str.isspace] on that
      range.  [str.title] is modelled on the characters of the range whose
      title case stays in the range; statements about title case assume
      that the text holds no other character.
    - Timestamps ([start], [end], [start_time], [end_time]) are rationals.
      The segmenter only copies them and compares one difference against
      [CHUNK_SIZE].  The code takes that difference in binary floating
      point and the model takes it exactly; the two agree where the times
      are whole numbers of seconds, and statements that depend on the
      exact value of the difference are made for such transcripts.
    - The three SQLite tables are finite maps from their primary key to the
      remaining columns ([created_at] is never read and is left out).
      [INSERT OR REPLACE] is map insertion; the rows of [course_modules]
      whose key is NULL are kept in a list of their own.  Values go
      through [json.dumps] / [json.loads], which is the identity on the
      values stored here.  The tables are taken to exist; where the code
      reads a table that it has not created, statements name the exception
      only for worlds in which the table holds a row.
    - Everything outside the process (yt-dlp, Whisper, the chat-completion
      endpoint, the JSON parser) is an oracle in [Env].  An oracle is
      indexed by the number of external calls made so far, so that two
      calls with the same arguments may answer differently.  Each external
      call is recorded in the [trace] of the world.
    - Console and log output is not modelled. *)

From Stdlib Require Import String Ascii List ZArith QArith Lia Bool.
From stdpp Require Import gmap strings.
Import ListNotations.

Set Warnings "-register-all".

Local Open Scope string_scope.
Local Open Scope list_scope.

(** ** Python string primitives *)

Module Py.

Definition code (c : ascii) : N := N_of_ascii c.

Definition between (lo hi : N) (c : ascii) : bool :=
  ((lo <=? code c) && (code c <=? hi))%N.

(** [str.isspace] for one character. *)
Definition isspace (c : ascii) : bool :=
  between 9 13 c || between 28 32 c || (code c =? 133)%N || (code c =? 160)%N.

Definition isupper (c : ascii) : bool := between 65 90 c.
Definition islower (c : ascii) : bool := between 97 122 c.
Definition isdigit (c : ascii) : bool := between 48 57 c.

(** The letters of the range beyond ASCII: capitals from 192 to 222 and
    small letters from 223 to 255, the signs 215 and 247 left out. *)
Definition latin_upper (c : ascii) : bool :=
  between 192 222 c && negb (code c =? 215)%N.
Definition latin_lower (c : ascii) : bool :=
  between 223 255 c && negb (code c =? 247)%N.

(** The characters that [str.title] treats as cased: the letters, and the
    three signs 170, 181 and 186. *)
Definition cased (c : ascii) : bool :=
  isupper c || islower c || latin_upper c || latin_lower c
  || (code c =? 170)%N || (code c =? 181)%N || (code c =? 186)%N.

(** The title case of 181, 223 and 255 lies outside the range (one of
    them is two characters long); every other character of the range has
    its title case and its lower case within the range. *)
Definition title_case_in_range (c : ascii) : bool :=
  negb ((code c =? 181)%N || (code c =? 223)%N || (code c =? 255)%N).

(** The title-case mapping, which is the upper-case mapping on the
    characters of [title_case_in_range], and the lower-case mapping. *)
Definition upper (c : ascii) : ascii :=
  if islower c || (latin_lower c && title_case_in_range c)
  then ascii_of_N (code c - 32) else c.
Definition lower (c : ascii) : ascii :=
  if isupper c || latin_upper c then ascii_of_N (code c + 32) else c.

Definition nonempty (s : string) : bool :=
  match s with EmptyString => false | String _ _ => true end.

(** [s.split()]: maximal runs of non-whitespace characters.  [word] is the
    run being read. *)
Fixpoint split_from (word s : string) : list string :=
  match s with
  | EmptyString => if nonempty word then [word] else []
  | String c s' =>
      if isspace c
      then (if nonempty word then word :: split_from EmptyString s'
            else split_from EmptyString s')
      else split_from (word ++ String c EmptyString) s'
  end.

Definition split (s : string) : list string := split_from EmptyString s.

(** [sep.join(parts)] *)
Definition join (sep : string) (parts : list string) : string :=
  String.concat sep parts.

Fixpoint drop_while (p : ascii -> bool) (l : list ascii) : list ascii :=
  match l with
  | [] => []
  | c :: l' => if p c then drop_while p l' else l
  end.

Definition lstrip_by (p : ascii -> bool) (s : string) : string :=
  string_of_list_ascii (drop_while p (list_ascii_of_string s)).

Definition rstrip_by (p : ascii -> bool) (s : string) : string :=
  string_of_list_ascii
    (rev (drop_while p (rev (list_ascii_of_string s)))).

(** [s.strip()] *)
Definition strip (s : string) : string :=
  rstrip_by isspace (lstrip_by isspace s).

(** [s.rstrip(chars)] *)
Definition rstrip_chars (chars : list ascii) (s : string) : string :=
  rstrip_by (fun c => existsb (Ascii.eqb c) chars) s.

(** [s.title()]: a cased character that follows a cased character is
    lowered, any other cased character is raised.  This is [str.title] on
    the strings whose characters are all in [title_case_in_range]. *)
Fixpoint title_from (prev_cased : bool) (s : string) : string :=
  match s with
  | EmptyString => EmptyString
  | String c s' =>
      if cased c
      then String (if prev_cased then lower c else upper c)
                  (title_from true s')
      else String c (title_from false s')
  end.

Definition title (s : string) : string := title_from false s.

(** [s[:n]] *)
Fixpoint take (n : nat) (s : string) : string :=
  match n, s with
  | S n', String c s' => String c (take n' s')
  | _, _ => EmptyString
  end.

(** [s.startswith(p)], returning what follows the prefix. *)
Fixpoint after_prefix (p s : string) : option string :=
  match p, s with
  | EmptyString, _ => Some s
  | String a p', String b s' =>
      if Ascii.eqb a b then after_prefix p' s' else None
  | String _ _, EmptyString => None
  end.

(** First occurrence of [pat] in [s]: the text before it and after it. *)
Fixpoint partition (pat s : string) : option (string * string) :=
  match after_prefix pat s with
  | Some rest => Some (EmptyString, rest)
  | None =>
      match s with
      | EmptyString => None
      | String c s' =>
          match partition pat s' with
          | Some (before, rest) => Some (String c before, rest)
          | None => None
          end
      end
  end.

End Py.

(** ** Data model *)

(** One transcript segment as Whisper returns it.  The segmenter reads
    [text], [start] and [end]; [id] stands for the remaining keys, which
    are carried along untouched. *)
Record Segment := {
  seg_id : Z;
  seg_text : string;
  seg_start : Q;
  seg_end : Q
}.

(** A module dictionary of [structure_transcript]. *)
Record Module_ := {
  title : string;
  content : list Segment;
  start_time : Q;
  end_time : Q
}.

(** [VideoInfo] of [transcriber.py]. *)
Record VideoInfo := {
  vi_title : string;
  embed_url : string;
  duration : Z;
  transcript : list Segment
}.

(** What [ydl.extract_info] reports, after the [info.get] defaults. *)
Record YtInfo := {
  yt_id : string;
  yt_title : string;
  yt_duration : Z
}.

(** JSON values, as [json.loads] returns them. *)
Inductive json :=
| JNull
| JBool (b : bool)
| JNum (q : Q)
| JStr (s : string)
| JArr (items : list json)
| JObj (fields : list (string * json)).

(** Python truth value of a parsed JSON value. *)
Definition truthy (j : json) : bool :=
  match j with
  | JNull => false
  | JBool b => b
  | JNum q => negb (Qeq_bool q 0)
  | JStr s => Py.nonempty s
  | JArr [] => false
  | JArr (_ :: _) => true
  | JObj [] => false
  | JObj (_ :: _) => true
  end.

(** Whether [len(j)] is defined. *)
Definition has_len (j : json) : bool :=
  match j with
  | JStr _ | JArr _ | JObj _ => true
  | JNull | JBool _ | JNum _ => false
  end.

(** The two prompt templates are fixed texts; a prompt is represented by
    the values substituted into its template. *)
Inductive Prompt :=
| TitlePrompt (text : string)
| QuizPrompt (text difficulty : string) (num_questions : Z).

(** Outcome of [client.chat.completions.create].  [ApiResponse None] is a
    response from which [choices[0].message.content] cannot be read as a
    string. *)
Inductive LlmReply :=
| ApiFailure
| ApiResponse (message_content : option string).

Inductive Event :=
| YtdlExtractInfo (url : string)
| WhisperTranscribe (url : string)
| LlmCall (model : string) (prompt : Prompt).

(** The oracles.  [None] from the first three stands for a raised
    exception; the first argument is the number of events recorded before
    the call. *)
Record Env := {
  ytdl_extract_info : nat -> string -> option YtInfo;
  whisper_transcribe : nat -> string -> option (list Segment);
  chat_completion : nat -> string -> Prompt -> LlmReply;
  json_loads : string -> option json
}.

(** The three cache tables and the record of external calls.  The rows
    of [course_modules] whose [video_id] is NULL are kept apart, in the
    order of their insertion: a primary key of SQLite admits any number of
    them, and no [SELECT ... WHERE video_id = ?] returns one. *)
Record World := {
  transcriptions : gmap string VideoInfo;
  course_modules : gmap string (list Module_);
  null_key_modules : list (list Module_);
  module_questions : gmap (string * string) (string * json);
  trace : list Event
}.

Definition set_transcriptions (t : gmap string VideoInfo) (w : World) : World :=
  {| transcriptions := t; course_modules := course_modules w;
     null_key_modules := null_key_modules w;
     module_questions := module_questions w; trace := trace w |}.

Definition set_course_modules (c : gmap string (list Module_)) (w : World) : World :=
  {| transcriptions := transcriptions w; course_modules := c;
     null_key_modules := null_key_modules w;
     module_questions := module_questions w; trace := trace w |}.

Definition set_null_key_modules (rows : list (list Module_)) (w : World) : World :=
  {| transcriptions := transcriptions w; course_modules := course_modules w;
     null_key_modules := rows;
     module_questions := module_questions w; trace := trace w |}.

Definition set_module_questions (q : gmap (string * string) (string * json))
    (w : World) : World :=
  {| transcriptions := transcriptions w; course_modules := course_modules w;
     null_key_modules := null_key_modules w;
     module_questions := q; trace := trace w |}.

Definition record_event (e : Event) (w : World) : World :=
  {| transcriptions := transcriptions w; course_modules := course_modules w;
     null_key_modules := null_key_modules w;
     module_questions := module_questions w; trace := trace w ++ [e] |}.

(** ** Computations: world passing with exceptions *)

Inductive exn :=
| ValueError (msg : string)
| TypeError
| KeyError
| IndexError
| UnboundLocalError
| JSONDecodeError
| OverflowError
| APIError.

Inductive result (A : Type) :=
| Ok (value : A)
| Raise (e : exn).
Arguments Ok {A} value.
Arguments Raise {A} e.

Definition M (A : Type) : Type := World -> result A * World.

Definition ret {A} (a : A) : M A := fun w => (Ok a, w).

Definition raise {A} (e : exn) : M A := fun w => (Raise e, w).

Definition bind {A B} (m : M A) (k : A -> M B) : M B :=
  fun w =>
    match m w with
    | (Ok a, w') => k a w'
    | (Raise e, w') => (Raise e, w')
    end.

(** [try: m  except Exception: handler] *)
Definition try_except {A} (m : M A) (handler : exn -> M A) : M A :=
  fun w =>
    match m w with
    | (Ok a, w') => (Ok a, w')
    | (Raise e, w') => handler e w'
    end.

Definition get_world : M World := fun w => (Ok w, w).
Definition update_world (f : World -> World) : M unit := fun w => (Ok tt, f w).

Declare Scope py_scope.
Delimit Scope py_scope with py.
Notation "'let*' x ':=' m 'in' k" := (bind m (fun x => k))
  (at level 10, x name, m at level 100, k at level 200) : py_scope.
Notation "'let*' '_' ':=' m 'in' k" := (bind m (fun _ => k))
  (at level 10, m at level 100, k at level 200) : py_scope.
Local Open Scope py_scope.

(** [l[-1]] *)
Definition last_item {A} (l : list A) : M A :=
  match List.last (List.map Some l) None with
  | Some x => ret x
  | None => raise IndexError
  end.

(** ** The pipeline *)

Section Pipeline.

Context (env : Env).

(** *** transcriber.py *)

Definition get_transcription_from_db (video_id : string) : M (option VideoInfo) :=
  let* w := get_world in
  ret (transcriptions w !! video_id).

(** The column [duration] is an INTEGER: [sqlite3] binds a Python [int]
    as a signed 64-bit integer and raises [OverflowError] on any other. *)
Definition fits_sqlite_integer (z : Z) : bool :=
  ((- 2 ^ 63 <=? z) && (z <? 2 ^ 63))%Z.

Definition save_transcription_to_db (video_id : string) (video_info : VideoInfo)
    : M unit :=
  if fits_sqlite_integer (duration video_info)
  then
    update_world (fun w =>
      set_transcriptions (<[video_id := video_info]> (transcriptions w)) w)
  else raise OverflowError.

(** [ydl.extract_info(url, download=False)] *)
Definition extract_info (url : string) : M YtInfo :=
  let* w := get_world in
  let* _ := update_world (record_event (YtdlExtractInfo url)) in
  match ytdl_extract_info env (List.length (trace w)) url with
  | Some info => ret info
  | None => raise APIError
  end.

(** [whisper.load_model], [ydl.download] and [model.transcribe] taken
    together: the segments, or an exception from any of the three. *)
Definition download_and_transcribe (url : string) : M (list Segment) :=
  let* w := get_world in
  let* _ := update_world (record_event (WhisperTranscribe url)) in
  match whisper_transcribe env (List.length (trace w)) url with
  | Some segments => ret segments
  | None => raise APIError
  end.

Definition transcribe_youtube_video (url : string) : M (option VideoInfo) :=
  try_except
    (let* info := extract_info url in
     let video_id := yt_id info in
     let* cached_result := get_transcription_from_db video_id in
     match cached_result with
     | Some video => ret (Some video)
     | None =>
         let* segments := download_and_transcribe url in
         let video_info :=
           {| vi_title := yt_title info;
              embed_url := "https://www.youtube.com/embed/" ++ video_id;
              duration := yt_duration info;
              transcript := segments |} in
         let* _ := save_transcription_to_db video_id video_info in
         ret (Some video_info)
     end)
    (fun _ => ret None).

(** *** modules.py *)

(** [call_nebius_llm], which [quizzes.py] repeats word for word: the
    serialised response, or [None] when the client raised.  A response is
    represented by its message content. *)
Definition call_nebius_llm (model : string) (prompt : Prompt)
    : M (option (option string)) :=
  let* w := get_world in
  let* _ := update_world (record_event (LlmCall model prompt)) in
  match chat_completion env (List.length (trace w)) model prompt with
  | ApiFailure => ret None
  | ApiResponse body => ret (Some body)
  end.

(** [json.loads(response)['choices'][0]['message']['content']] *)
Definition message_content (body : option string) : M string :=
  match body with
  | Some text => ret text
  | None => raise KeyError
  end.

(** A row whose [video_id] is NULL is never selected, so the key [None]
    reads as absent.  The table is taken to exist: [structure_transcript]
    creates it before its lookup; [generate_all_module_quizzes] does not,
    and on a database where no module list was ever stored its [SELECT]
    raises [sqlite3.OperationalError]. *)
Definition get_cached_modules (video_id : option string)
    : M (option (list Module_)) :=
  let* w := get_world in
  ret (match video_id with
       | Some k => course_modules w !! k
       | None => None
       end).

(** [INSERT OR REPLACE]: a row with a key replaces the row of that key, a
    row whose key is NULL is added to the others. *)
Definition save_modules_to_cache (video_id : option string)
    (modules : list Module_) : M unit :=
  match video_id with
  | Some k =>
      update_world (fun w =>
        set_course_modules (<[k := modules]> (course_modules w)) w)
  | None =>
      update_world (fun w =>
        set_null_key_modules (null_key_modules w ++ [modules]) w)
  end.

Definition is_id_char (c : ascii) : bool :=
  Py.islower c || Py.isupper c || Py.isdigit c
  || Ascii.eqb c "_"%char || Ascii.eqb c "-"%char.

(** [[a-zA-Z0-9_-]{n}] at the head of [s]. *)
Fixpoint id_chars (n : nat) (s : string) : option string :=
  match n with
  | O => Some EmptyString
  | S n' =>
      match s with
      | String c s' =>
          if is_id_char c
          then option_map (String c) (id_chars n' s')
          else None
      | EmptyString => None
      end
  end.

Definition or_else {A} (a b : option A) : option A :=
  match a with Some _ => a | None => b end.

Definition prefixed_id (prefix s : string) : option string :=
  match Py.after_prefix prefix s with
  | Some rest => id_chars 11 rest
  | None => None
  end.

(** The pattern [(?:embed\/|watch\?v=|\/)?([a-zA-Z0-9_-]{11})] anchored
    at the head of [s]: the alternatives in order, then without prefix. *)
Definition match_video_id (s : string) : option string :=
  or_else (prefixed_id "embed/" s)
    (or_else (prefixed_id "watch?v=" s)
       (or_else (prefixed_id "/" s) (id_chars 11 s))).

(** [re.search]: the leftmost position where the pattern matches. *)
Fixpoint extract_video_id (url : string) : option string :=
  match match_video_id url with
  | Some video_id => Some video_id
  | None =>
      match url with
      | String _ rest => extract_video_id rest
      | EmptyString => None
      end
  end.

Definition TITLE_MODEL : string := "meta-llama/Llama-3.3-70B-Instruct".

(** [TitleGenerator.generate_title] *)
Definition generate_title (text : string) : M (option string) :=
  try_except
    (let* response := call_nebius_llm TITLE_MODEL (TitlePrompt text) in
     match response with
     | Some body =>
         let* text := message_content body in
         ret (Some (Py.strip text))
     | None => ret None
     end)
    (fun _ => ret None).

Definition full_text_of (content : list Segment) : string :=
  Py.join " " (List.map seg_text content).

(** The last three lines of [generate_module_title]. *)
Definition fallback_title (full_text : string) : string :=
  let words := Py.split full_text in
  if (10 <? List.length words)%nat
  then Py.join " " (firstn 10 words) ++ "..."
  else full_text.

Definition generate_module_title (content : list Segment) : M string :=
  let full_text := full_text_of content in
  let* generated :=
    try_except
      (let* title := generate_title full_text in
       match title with
       | Some t =>
           if Py.nonempty t
           then ret (Some (Py.rstrip_chars ["."; "!"; "?"]%char (Py.title t)))
           else ret None
       | None => ret None
       end)
      (fun _ => ret None) in
  match generated with
  | Some title => ret title
  | None => ret (fallback_title full_text)
  end.

Definition CHUNK_SIZE : Q := 600.

(** The state of the loop: [modules] and [current_module]. *)
Definition LoopState : Type := list Module_ * Module_.

Definition empty_module : Module_ :=
  {| title := EmptyString; content := []; start_time := 0; end_time := 0 |}.

(** [current_module['end_time'] = current_module['content'][-1]['end'];
     current_module['title'] = generate_module_title(current_module['content'])] *)
Definition finalize (current_module : Module_) : M Module_ :=
  let* last_entry := last_item (content current_module) in
  let* new_title := generate_module_title (content current_module) in
  ret {| title := new_title;
         content := content current_module;
         start_time := start_time current_module;
         end_time := seg_end last_entry |}.

(** One iteration of [for entry in video['transcript']].  The difference
    [entry['start'] - current_module['start_time']] is taken exactly. *)
Definition loop_body (st : LoopState) (entry : Segment) : M LoopState :=
  let (modules, current_module) := st in
  match content current_module with
  | [] =>
      ret (modules,
           {| title := title current_module;
              content := content current_module ++ [entry];
              start_time := seg_start entry;
              end_time := end_time current_module |})
  | _ :: _ =>
      if Qlt_le_dec (seg_start entry - start_time current_module) CHUNK_SIZE
      then
        ret (modules,
             {| title := title current_module;
                content := content current_module ++ [entry];
                start_time := start_time current_module;
                end_time := end_time current_module |})
      else
        let* finished := finalize current_module in
        ret (modules ++ [finished],
             {| title := EmptyString;
                content := [entry];
                start_time := seg_start entry;
                end_time := 0 |})
  end.

Fixpoint for_each (st : LoopState) (entries : list Segment) : M LoopState :=
  match entries with
  | [] => ret st
  | entry :: rest =>
      let* st' := loop_body st entry in
      for_each st' rest
  end.

(** Lines 136-170: the loop and the last module. *)
Definition segment_transcript (entries : list Segment) : M (list Module_) :=
  let* st := for_each ([], empty_module) entries in
  let (modules, current_module) := st in
  match content current_module with
  | [] => ret modules
  | _ :: _ =>
      let* finished := finalize current_module in
      ret (modules ++ [finished])
  end.

(** [video] is what [transcribe_youtube_video] returned, [None] included:
    subscripting [None] raises [TypeError]. *)
Definition structure_transcript (video : option VideoInfo) : M (list Module_) :=
  match video with
  | None => raise TypeError
  | Some video =>
      let video_id := extract_video_id (embed_url video) in
      let* cached_modules := get_cached_modules video_id in
      match cached_modules with
      | Some (m :: ms) => ret (m :: ms)
      | _ =>
          let* modules := segment_transcript (transcript video) in
          let* _ := save_modules_to_cache video_id modules in
          ret modules
      end
  end.

(** *** quizzes.py *)

Definition get_module_text (module : Module_) : string :=
  let text_parts :=
    (if Py.nonempty (title module) then [title module] else [])
    ++ List.map seg_text (content module) in
  Py.strip (Py.join " " text_parts).

(** The table [module_questions] has the primary key
    [(video_id, module_title)]; [difficulty] is an ordinary column. *)
Definition get_cached_quiz (video_id module_title : string) : M (option json) :=
  let* w := get_world in
  ret (option_map snd (module_questions w !! (video_id, module_title))).

Definition save_quiz_to_cache (video_id module_title difficulty : string)
    (questions : json) : M unit :=
  update_world (fun w =>
    set_module_questions
      (<[(video_id, module_title) := (difficulty, questions)]>
         (module_questions w)) w).

Definition LF : string := String "010"%char EmptyString.

(** [re.search(r'```json\n(.*?)\n```', content, re.DOTALL)]: group 1 of the
    leftmost match.  After the first opening fence the lazy group ends
    at the first closing fence; when there is none, no later opening
    fence can match either. *)
Definition search_json_block (content : string) : option string :=
  match Py.partition ("```json" ++ LF) content with
  | Some (_, rest) =>
      match Py.partition (LF ++ "```") rest with
      | Some (block, _) => Some block
      | None => None
      end
  | None => None
  end.

Definition create_fallback_question (text : string) : json :=
  JObj [("question", JStr ("What is the main focus of " ++ Py.take 15 text ++ "?"));
        ("options", JObj [("A", JStr "Option A"); ("B", JStr "Option B");
                          ("C", JStr "Option C"); ("D", JStr "Option D")]);
        ("correct_answer", JStr "A");
        ("explanation", JStr "Fallback question due to generation error.")].

Definition QUIZ_MODEL : string := "deepseek-ai/DeepSeek-V3".

(** [CourseDesignerAgent.generate_quiz_questions].  When the client
    returned nothing, [content] is never bound and reading it raises. *)
Definition generate_quiz_questions (text difficulty : string)
    (num_questions : Z) : M json :=
  if negb (Py.nonempty text) || (num_questions <? 1)%Z
  then ret (JArr [])
  else
    try_except
      (let* response :=
         call_nebius_llm QUIZ_MODEL (QuizPrompt text difficulty num_questions) in
       let* content :=
         match response with
         | Some body => message_content body
         | None => raise UnboundLocalError
         end in
       let* questions :=
         match search_json_block content with
         | Some block =>
             match json_loads env block with
             | Some parsed => ret parsed
             | None => raise JSONDecodeError
             end
         | None => ret (JArr [create_fallback_question text])
         end in
       if has_len questions then ret questions else raise TypeError)
      (fun _ => ret (JArr [])).

(** A quiz dictionary: [module_title] and [questions]. *)
Definition Quiz : Type := string * json.

(** The loop of [generate_all_module_quizzes]; the agent is called with
    its default [num_questions = 2]. *)
Fixpoint quiz_each_module (video_id difficulty : string)
    (module_quizzes : list Quiz) (modules : list Module_) : M (list Quiz) :=
  match modules with
  | [] => ret module_quizzes
  | module :: rest =>
      let module_text := get_module_text module in
      if negb (Py.nonempty module_text)
      then quiz_each_module video_id difficulty module_quizzes rest
      else
        let* module_quizzes' :=
          try_except
            (let* questions := generate_quiz_questions module_text difficulty 2 in
             let module_quiz := (title module, questions) in
             let* _ := save_quiz_to_cache video_id (fst module_quiz)
                         difficulty questions in
             ret (module_quizzes ++ [module_quiz]))
            (fun _ => ret module_quizzes) in
        quiz_each_module video_id difficulty module_quizzes' rest
  end.

Definition generate_all_module_quizzes (video_id difficulty : string)
    : M (list Quiz) :=
  let* modules := get_cached_modules (Some video_id) in
  match modules with
  | Some (m :: ms) => quiz_each_module video_id difficulty [] (m :: ms)
  | _ => raise (ValueError "No modules found in cache")
  end.

(** The result is [None] when the loop over [quizzes] ends without a
    [return]. *)
Definition get_quiz (video_id module_title difficulty : string)
    : M (option json) :=
  let* cached_questions := get_cached_quiz video_id module_title in
  let generate :=
    let* quizzes := generate_all_module_quizzes video_id difficulty in
    ret (option_map snd
           (List.find (fun quiz => String.eqb (fst quiz) module_title) quizzes)) in
  match cached_questions with
  | Some questions => if truthy questions then ret (Some questions) else generate
  | None => generate
  end.

(** *** main.py *)

Inductive HttpResponse (A : Type) :=
| Http200 (body : A)
| Http400 (error : string)
| Http500 (error : exn).
#[global] Arguments Http200 {A} body.
#[global] Arguments Http400 {A} error.
#[global] Arguments Http500 {A} error.

Definition respond {A} (handler : M A) (w : World) : HttpResponse A * World :=
  match handler w with
  | (Ok body, w') => (Http200 body, w')
  | (Raise e, w') => (Http500 e, w')
  end.

(** [GET /modules?video_id=...] *)
Definition modules (video_id : string) (w : World)
    : HttpResponse (list Module_) * World :=
  if negb (Py.nonempty video_id)
  then (Http400 "Video ID is required", w)
  else
    respond
      (let* video_transcript :=
         transcribe_youtube_video ("https://www.youtube.com/watch?v=" ++ video_id) in
       structure_transcript video_transcript) w.

(** [GET /generate_quiz?video_id=...&module_title=...&difficulty=...] *)
Definition generate_quiz (video_id module_title : string) (difficulty : option string)
    (w : World) : HttpResponse (option json) * World :=
  if negb (Py.nonempty video_id) || negb (Py.nonempty module_title)
  then (Http400 "Both video_id and module_title are required", w)
  else
    respond (get_quiz video_id module_title (default "medium" difficulty)) w.

End Pipeline.

(** ** Vocabulary of the statements *)

(** [R] holds between every two neighbours of [l]. *)
Fixpoint adjacent {A} (R : A -> A -> Prop) (l : list A) : Prop :=
  match l with
  | a :: (b :: _) as rest => R a b /\ adjacent R rest
  | _ => True
  end.

Definition last_error {A} (l : list A) : option A :=
  List.last (List.map Some l) None.

(** The per-module part of the Module invariant. *)
Definition closed_module (m : Module_) : Prop :=
  exists first last,
    hd_error (content m) = Some first /\
    last_error (content m) = Some last /\
    start_time m = seg_start first /\
    end_time m = seg_end last.

(** The accumulator between two iterations: empty, or seeded with its
    [start_time] set. *)
Definition open_module (m : Module_) : Prop :=
  match content m with
  | [] => True
  | first :: _ => start_time m = seg_start first
  end.

(** Only the trace differs between [w] and [w']. *)
Definition same_tables (w w' : World) : Prop :=
  transcriptions w' = transcriptions w /\
  course_modules w' = course_modules w /\
  module_questions w' = module_questions w /\
  null_key_modules w' = null_key_modules w.

(** The module cache has no usable entry for [video]: the lookup made by
    [structure_transcript] returns [None] or an empty list. *)
Definition module_cache_miss (video : VideoInfo) (w : World) : Prop :=
  fst (get_cached_modules (extract_video_id (embed_url video)) w) = Ok None \/
  fst (get_cached_modules (extract_video_id (embed_url video)) w) = Ok (Some []).

(** The reply to a title request carries no title: the client raised, the
    response cannot be read, or the content is blank. *)
Definition no_usable_title (reply : LlmReply) : Prop :=
  match reply with
  | ApiFailure => True
  | ApiResponse None => True
  | ApiResponse (Some text) => Py.strip text = EmptyString
  end.

(** What [structure_transcript] does after a miss: lines 135-176. *)
Definition resegment (env : Env) (video : VideoInfo) : M (list Module_) :=
  let* modules := segment_transcript env (transcript video) in
  let* _ := save_modules_to_cache (extract_video_id (embed_url video)) modules in
  ret modules.

(** What [get_quiz] does after a miss: lines 301-306. *)
Definition regenerate (env : Env) (video_id module_title difficulty : string)
    : M (option json) :=
  let* quizzes := generate_all_module_quizzes env video_id difficulty in
  ret (option_map snd
         (List.find (fun quiz => String.eqb (fst quiz) module_title) quizzes)).

(** What goes wrong inside the [try] of [generate_quiz_questions]: the
    client returned nothing, the response cannot be read, the fenced block
    is not JSON, or the parsed value has no length. *)
Definition quiz_parsing_raises (env : Env) (reply : LlmReply) : Prop :=
  match reply with
  | ApiFailure => True
  | ApiResponse None => True
  | ApiResponse (Some content) =>
      match search_json_block content with
      | Some block =>
          match json_loads env block with
          | Some parsed => has_len parsed = false
          | None => True
          end
      | None => False
      end
  end.

(** [obj.get(key)] on a parsed JSON object. *)
Fixpoint field (key : string) (fields : list (string * json)) : option json :=
  match fields with
  | [] => None
  | (k, v) :: rest => if String.eqb k key then Some v else field key rest
  end.

(** [transcribe_youtube_video] starts with one request to yt-dlp, whatever
    happens next, so these events count its calls. *)
Definition is_provider_call (e : Event) : bool :=
  match e with
  | YtdlExtractInfo _ => true
  | WhisperTranscribe _ | LlmCall _ _ => false
  end.

(** Reduction of record projections and list primitives on the states of
    the loop. *)
Ltac tidy :=
  cbn [title content start_time end_time seg_start seg_end app
       last_error List.last List.map].

(** Every segment of [m] starts less than [CHUNK_SIZE] after [m] does. *)
Definition within_chunk (m : Module_) : Prop :=
  List.Forall (fun s => (seg_start s - start_time m < CHUNK_SIZE)%Q) (content m).

(** [m2] starts at least [CHUNK_SIZE] after [m1] does. *)
Definition a_chunk_apart (t1 t2 : Q) : Prop := (CHUNK_SIZE <= t2 - t1)%Q.

(** Every segment starts at a whole number of seconds, from 0 to 2^53.
    Binary floating point holds these numbers and their differences
    exactly, so on such a transcript the comparison that [loop_body]
    makes on rationals is the comparison that the code makes on floats. *)
Definition whole_second (q : Q) : bool :=
  (Qden q =? 1)%positive && (0 <=? Qnum q)%Z && (Qnum q <=? 2 ^ 53)%Z.

Definition whole_seconds (entries : list Segment) : Prop :=
  forallb (fun s => whole_second (seg_start s)) entries = true.

(** The table [course_modules] holds a row, so the table exists.
    [generate_all_module_quizzes] reads the table without creating it:
    where no row was ever stored its lookup may raise instead of returning
    nothing. *)
Definition course_modules_has_rows (w : World) : Prop :=
  (exists video_id modules, course_modules w !! video_id = Some modules) \/
  null_key_modules w <> [].

(** The title request made when [m] is closed. *)
Definition title_request (m : Module_) : Event :=
  LlmCall TITLE_MODEL (TitlePrompt (full_text_of (content m))).

(** What the loop keeps true of [modules] and [current_module], beyond
    [open_module]: the chunk bound in every module, and a chunk between the
    starts of neighbours, the accumulator included once it is seeded. *)
Definition chunk_invariant (ms : list Module_) (cur : Module_) : Prop :=
  List.Forall within_chunk ms /\
  within_chunk cur /\
  open_module cur /\
  match content cur with
  | [] => ms = []
  | _ :: _ => adjacent a_chunk_apart (List.map start_time ms ++ [start_time cur])
  end.

(** The modules for which [generate_all_module_quizzes] asks for a quiz. *)
Definition has_text (m : Module_) : bool := Py.nonempty (get_module_text m).

(** The quiz request made for [m]. *)
Definition quiz_request (difficulty : string) (m : Module_) : Event :=
  LlmCall QUIZ_MODEL (QuizPrompt (get_module_text m) difficulty 2).

(** The questions of the first and of the last quiz with a given title. *)
Definition first_quiz_for (module_title : string) (quizzes : list Quiz) : option json :=
  option_map snd (List.find (fun quiz => String.eqb (fst quiz) module_title) quizzes).

Definition last_quiz_for (module_title : string) (quizzes : list Quiz) : option json :=
  first_quiz_for module_title (List.rev quizzes).

Definition chars (s : string) : list ascii := list_ascii_of_string s.

Definition first_char (s : string) : option ascii := hd_error (chars s).

Definition last_char (s : string) : option ascii := hd_error (List.rev (chars s)).

(** The text that [get_module_text] strips. *)
Definition raw_module_text (m : Module_) : string :=
  Py.join " "
    ((if Py.nonempty (title m) then [title m] else []) ++ List.map seg_text (content m)).

(** ** Concrete environments and inputs *)

Definition empty_world : World :=
  {| transcriptions := ∅; course_modules := ∅; null_key_modules := [];
     module_questions := ∅; trace := [] |}.

(** Every external service is down. *)
Definition offline : Env :=
  {| ytdl_extract_info := fun _ _ => None;
     whisper_transcribe := fun _ _ => None;
     chat_completion := fun _ _ _ => ApiFailure;
     json_loads := fun _ => None |}.

(** The chat endpoint answers every request with the same completion.
    The completions used below hold no fenced block, so the parser, which
    rejects every text here, is not consulted. *)
Definition answering (completion : string) : Env :=
  {| ytdl_extract_info := fun _ _ => None;
     whisper_transcribe := fun _ _ => None;
     chat_completion := fun _ _ _ => ApiResponse (Some completion);
     json_loads := fun _ => None |}.

(** A completion whose closing fence is not on a line of its own, as in
    [test_course_designer_agent_generate_quiz_questions]. *)
Definition unclosed_block : string := "```json" ++ LF ++ "[]```".

(** The JSON text of a list that holds one string, [word]. *)
Definition DQ : string := String "034"%char EmptyString.

Definition word_list (word : string) : string := "[" ++ DQ ++ word ++ DQ ++ "]".

Definition is_letter (c : ascii) : bool := Py.isupper c || Py.islower c.

(** [json.loads] on the texts [word_list word] with [word] made of ASCII
    letters, where it returns the list of that one string.  The
    environments below hand no other text to the parser; this function
    rejects every other text. *)
Definition loads_word_list (block : string) : option json :=
  match Py.after_prefix ("[" ++ DQ) block with
  | Some rest =>
      match Py.partition (DQ ++ "]") rest with
      | Some (word, EmptyString) =>
          if forallb is_letter (chars word) then Some (JArr [JStr word]) else None
      | _ => None
      end
  | None => None
  end.

(** Everything works: the video has the id of the end-to-end tests and a
    transcript of two segments; title requests fail, so titles fall back;
    a quiz request whose difficulty is a word of ASCII letters is answered
    with a fenced block that holds the JSON list of that word, and any
    other quiz request fails. *)
Definition studio : Env :=
  {| ytdl_extract_info := fun _ _ =>
       Some {| yt_id := "test_vid_id"; yt_title := "Test Video"; yt_duration := 120 |};
     whisper_transcribe := fun _ _ =>
       Some [ {| seg_id := 1; seg_text := "This is the first segment.";
                 seg_start := 0; seg_end := 10 |};
              {| seg_id := 2; seg_text := "This is the second segment.";
                 seg_start := 10; seg_end := 20 |} ];
     chat_completion := fun _ _ prompt =>
       match prompt with
       | TitlePrompt _ => ApiFailure
       | QuizPrompt _ difficulty _ =>
           if forallb is_letter (chars difficulty)
           then ApiResponse
                  (Some ("```json" ++ LF ++ word_list difficulty ++ LF ++ "```")%string)
           else ApiFailure
       end;
     json_loads := loads_word_list |}.

Definition studio_url : string := "https://www.youtube.com/watch?v=test_vid_id".

Definition studio_title : string :=
  "This is the first segment. This is the second segment.".

(** A world whose module cache and quiz cache each hold an empty list. *)
Definition world_with_empty_lists : World :=
  {| transcriptions := ∅;
     course_modules := {[ "test_vid_id" := [] ]};
     null_key_modules := [];
     module_questions := {[ ("test_vid_id", "Intro") := ("medium", JArr []) ]};
     trace := [] |}.

Definition seg (i : Z) (text : string) (s e : Q) : Segment :=
  {| seg_id := i; seg_text := text; seg_start := s; seg_end := e |}.





Definition video_of (segments : list Segment) : VideoInfo :=
  {| vi_title := "Test Video";
     embed_url := "https://www.youtube.com/embed/test_vid_id";
     duration := 120;
     transcript := segments |}.

(** The transcript of [test_structure_transcript]. *)
Definition boundary_transcript : list Segment :=
  [seg 1 "Content 1" 0 10; seg 2 "Content 2" 10 20; seg 3 "Content 3" 20 30;
   seg 4 "Content 4" 600 610; seg 5 "Content 5" 610 620].

(** Non-decreasing starts, each end after its start; the first segment is
    still running when the second starts, and nothing is said between the
    second and the third. *)
Definition overlapping_transcript : list Segment :=
  [seg 1 "a" 0 700; seg 2 "b" 600 610; seg 3 "c" 1300 1310].

(** Two segments, both within the first ten minutes. *)
Definition short_transcript : list Segment :=
  [seg 1 "This is the first segment." 0 10;
   seg 2 "This is the second segment." 10 20].

(** The module that [studio] yields for its video, and the world after the
    modules route has been called once for it from the empty world. *)
Definition studio_module : Module_ :=
  {| title := studio_title; content := short_transcript;
     start_time := 0; end_time := 20 |}.

Definition studio_world : World := snd (modules studio "test_vid_id" empty_world).

(** ** Running the primitives *)

Section Runs.

Context (env : Env).

Lemma call_nebius_llm_run model prompt w :
  call_nebius_llm env model prompt w =
    (Ok match chat_completion env (List.length (trace w)) model prompt with
        | ApiFailure => None
        | ApiResponse body => Some body
        end,
     record_event (LlmCall model prompt) w).
Proof.
  unfold call_nebius_llm, bind, get_world, update_world; simpl.
  destruct (chat_completion env _ model prompt); reflexivity.
Qed.

Lemma generate_title_run text w :
  generate_title env text w =
    (Ok match chat_completion env (List.length (trace w)) TITLE_MODEL
                (TitlePrompt text) with
        | ApiResponse (Some body) => Some (Py.strip body)
        | _ => None
        end,
     record_event (LlmCall TITLE_MODEL (TitlePrompt text)) w).
Proof.
  unfold generate_title, try_except, bind.
  rewrite call_nebius_llm_run.
  destruct (chat_completion env _ _ _) as [|[body|]]; reflexivity.
Qed.

(** Title generation always returns, and touches nothing but the trace. *)
Lemma generate_module_title_run content w :
  exists t,
    generate_module_title env content w =
      (Ok t, record_event (LlmCall TITLE_MODEL (TitlePrompt (full_text_of content))) w).
Proof.
  unfold generate_module_title, try_except, bind.
  rewrite generate_title_run.
  destruct (chat_completion env _ _ _) as [|[body|]]; simpl; eauto.
  destruct (Py.nonempty (Py.strip body)); simpl; eauto.
Qed.

Lemma same_tables_refl w : same_tables w w.
Proof. repeat split. Qed.

Lemma same_tables_trans w1 w2 w3 :
  same_tables w1 w2 -> same_tables w2 w3 -> same_tables w1 w3.
Proof. unfold same_tables; intros (?&?&?&?) (?&?&?&?); repeat split; congruence. Qed.

Lemma same_tables_record e w : same_tables w (record_event e w).
Proof. repeat split. Qed.

Lemma last_error_snoc {A} (l : list A) (x : A) : last_error (l ++ [x]) = Some x.
Proof.
  unfold last_error. rewrite List.map_app. simpl. apply List.last_last.
Qed.

Lemma last_error_cons {A} (a b : A) (l : list A) :
  last_error (a :: b :: l) = last_error (b :: l).
Proof. reflexivity. Qed.

Lemma last_error_nonempty {A} (a : A) (l : list A) :
  exists x, last_error (a :: l) = Some x.
Proof.
  revert a; induction l as [|b l IH]; intros a.
  - exists a; reflexivity.
  - rewrite last_error_cons. apply IH.
Qed.

(** Closing a seeded accumulator returns a closed module with the same
    content and start. *)
Lemma finalize_run cur first rest w :
  content cur = first :: rest ->
  exists t last w',
    finalize env cur w =
      (Ok {| title := t; content := content cur;
             start_time := start_time cur; end_time := seg_end last |}, w') /\
    last_error (content cur) = Some last /\
    same_tables w w'.
Proof.
  intros Hc. unfold finalize, bind, last_item.
  destruct (last_error_nonempty first rest) as [last Hl].
  rewrite <- Hc in Hl. unfold last_error in Hl. rewrite Hl. simpl.
  destruct (generate_module_title_run (content cur) w) as [t Ht].
  rewrite Ht. simpl.
  exists t, last, (record_event (LlmCall TITLE_MODEL (TitlePrompt (full_text_of (content cur)))) w).
  split; [reflexivity|]. split; [exact Hl|]. apply same_tables_record.
Qed.

End Runs.

(** ** The segmentation loop *)

Section Segmentation.

Context (env : Env).

Lemma concat_content_snoc (ms : list Module_) (m : Module_) :
  concat (List.map content (ms ++ [m])) = concat (List.map content ms) ++ content m.
Proof.
  rewrite List.map_app, List.concat_app. simpl. now rewrite List.app_nil_r.
Qed.

Lemma Forall_snoc {A} (P : A -> Prop) (l : list A) (x : A) :
  List.Forall P l -> P x -> List.Forall P (l ++ [x]).
Proof.
  intros Hl Hx. apply List.Forall_app. split; [exact Hl|]. constructor; [exact Hx|constructor].
Qed.

(** One iteration keeps the invariant and consumes exactly [entry]. *)
Lemma loop_body_run ms cur entry w :
  open_module cur ->
  List.Forall closed_module ms ->
  exists ms' cur' w',
    loop_body env (ms, cur) entry w = (Ok (ms', cur'), w') /\
    same_tables w w' /\
    List.Forall closed_module ms' /\
    open_module cur' /\
    content cur' <> [] /\
    concat (List.map content ms') ++ content cur'
      = concat (List.map content ms) ++ content cur ++ [entry].
Proof.
  intros Hopen Hms. unfold loop_body.
  destruct (content cur) as [|first rest] eqn:Hc.
  - eexists ms, _, w. split; [reflexivity|].
    split; [apply same_tables_refl|]. split; [exact Hms|].
    unfold open_module; simpl. repeat split. discriminate.
  - destruct (Qlt_le_dec (seg_start entry - start_time cur) CHUNK_SIZE) as [Hlt|Hge].
    + eexists ms, _, w. split; [reflexivity|].
      split; [apply same_tables_refl|]. split; [exact Hms|].
      unfold open_module in *; rewrite Hc in Hopen; simpl.
      repeat split; [exact Hopen|discriminate].
    + destruct (finalize_run env cur first rest w Hc) as (t & last & w' & Hfin & Hlast & Hsame).
      unfold bind. rewrite Hfin. simpl.
      eexists _, _, w'. split; [reflexivity|]. split; [exact Hsame|].
      split.
      * apply Forall_snoc; [exact Hms|].
        exists first, last. simpl. rewrite Hc in *. simpl.
        unfold open_module in Hopen. rewrite Hc in Hopen. auto.
      * split; [reflexivity|]. split; [discriminate|].
        rewrite concat_content_snoc. simpl. rewrite Hc.
        now rewrite <- List.app_assoc.
Qed.

(** The loop returns; its final state holds the whole input, in order. *)
Lemma for_each_run entries : forall ms cur w,
  open_module cur ->
  List.Forall closed_module ms ->
  exists ms' cur' w',
    for_each env (ms, cur) entries w = (Ok (ms', cur'), w') /\
    same_tables w w' /\
    List.Forall closed_module ms' /\
    open_module cur' /\
    concat (List.map content ms') ++ content cur'
      = concat (List.map content ms) ++ content cur ++ entries.
Proof.
  induction entries as [|entry rest IH]; intros ms cur w Hopen Hms.
  - exists ms, cur, w. simpl. split; [reflexivity|].
    split; [apply same_tables_refl|]. rewrite List.app_nil_r. auto.
  - destruct (loop_body_run ms cur entry w Hopen Hms)
      as (ms1 & cur1 & w1 & Hstep & Hsame1 & Hms1 & Hopen1 & _ & Hcat1).
    destruct (IH ms1 cur1 w1 Hopen1 Hms1)
      as (ms2 & cur2 & w2 & Hrest & Hsame2 & Hms2 & Hopen2 & Hcat2).
    exists ms2, cur2, w2.
    split; [cbn [for_each]; unfold bind; rewrite Hstep; exact Hrest|].
    split; [eapply same_tables_trans; eassumption|].
    split; [exact Hms2|]. split; [exact Hopen2|].
    rewrite Hcat2, List.app_assoc, Hcat1.
    now rewrite <- !List.app_assoc.
Qed.

(** Lines 136-170 return a list of closed modules whose contents, put
    end to end, are the transcript. *)
Lemma segment_transcript_run entries w :
  exists modules w',
    segment_transcript env entries w = (Ok modules, w') /\
    same_tables w w' /\
    List.Forall closed_module modules /\
    concat (List.map content modules) = entries.
Proof.
  destruct (for_each_run entries [] empty_module w) as
    (ms & cur & w1 & Hloop & Hsame & Hms & Hopen & Hcat);
    [exact I | constructor |].
  simpl in Hcat.
  unfold segment_transcript, bind. rewrite Hloop.
  destruct (content cur) as [|first rest] eqn:Hc.
  - exists ms, w1. rewrite List.app_nil_r in Hcat. auto.
  - destruct (finalize_run env cur first rest w1 Hc) as (t & last & w2 & Hfin & Hlast & Hsame2).
    rewrite Hfin. simpl.
    eexists _, w2. split; [reflexivity|].
    split; [eapply same_tables_trans; eassumption|].
    split.
    + apply Forall_snoc; [exact Hms|].
      exists first, last. simpl. rewrite Hc in *. simpl.
      unfold open_module in Hopen. rewrite Hc in Hopen. auto.
    + rewrite concat_content_snoc. simpl. rewrite Hc. exact Hcat.
Qed.

Lemma closed_module_nonempty m : closed_module m -> content m <> [].
Proof. intros (first & _ & Hhd & _) Hnil. rewrite Hnil in Hhd. discriminate. Qed.

Lemma closed_modules_of_nothing (modules : list Module_) :
  List.Forall closed_module modules ->
  concat (List.map content modules) = [] ->
  modules = [].
Proof.
  intros Hall Hcat. destruct modules as [|m ms]; [reflexivity|].
  inversion Hall as [|? ? Hm _]; subst.
  apply closed_module_nonempty in Hm.
  simpl in Hcat. apply List.app_eq_nil in Hcat. tauto.
Qed.

(** On a cache miss [structure_transcript] is the loop followed by the
    cache write. *)
Lemma structure_transcript_on_miss video w :
  module_cache_miss video w ->
  structure_transcript env (Some video) w =
    (let* modules := segment_transcript env (transcript video) in
     let* _ := save_modules_to_cache (extract_video_id (embed_url video)) modules in
     ret modules) w.
Proof.
  unfold module_cache_miss, structure_transcript, get_cached_modules, bind, get_world, ret.
  simpl. intros [H|H]; injection H as H; rewrite H; reflexivity.
Qed.

Lemma save_modules_to_cache_run video_id modules w :
  exists w', save_modules_to_cache video_id modules w = (Ok tt, w') /\
             transcriptions w' = transcriptions w /\
             module_questions w' = module_questions w /\
             trace w' = trace w /\
             (forall k, video_id = Some k -> course_modules w' !! k = Some modules).
Proof.
  destruct video_id as [k|]; simpl.
  - eexists. split; [reflexivity|]. simpl. repeat split.
    intros k' [= <-]. apply lookup_insert_eq.
  - eexists. split; [reflexivity|]. simpl. repeat split. discriminate.
Qed.

Lemma structure_transcript_run video w :
  module_cache_miss video w ->
  exists modules w',
    structure_transcript env (Some video) w = (Ok modules, w') /\
    List.Forall closed_module modules /\
    concat (List.map content modules) = transcript video /\
    transcriptions w' = transcriptions w /\
    module_questions w' = module_questions w /\
    (forall k, extract_video_id (embed_url video) = Some k ->
               course_modules w' !! k = Some modules).
Proof.
  intros Hmiss. rewrite structure_transcript_on_miss by exact Hmiss.
  destruct (segment_transcript_run (transcript video) w)
    as (modules & w1 & Hseg & (Ht & Hc & Hq & Hn) & Hall & Hcat).
  destruct (save_modules_to_cache_run (extract_video_id (embed_url video)) modules w1)
    as (w2 & Hsave & Ht2 & Hq2 & _ & Hlook).
  exists modules, w2. unfold bind. rewrite Hseg, Hsave. simpl.
  repeat split; try assumption; congruence.
Qed.

End Segmentation.

(** ** Segmentation claims *)

Section SegmentationClaims.

Context (env : Env).

Lemma adjacent_tail {A} (R : A -> A -> Prop) (a : A) (l : list A) :
  adjacent R (a :: l) -> adjacent R l.
Proof. destruct l; simpl; tauto. Qed.

Lemma adjacent_app_r {A} (R : A -> A -> Prop) (l1 l2 : list A) :
  adjacent R (l1 ++ l2) -> adjacent R l2.
Proof.
  induction l1 as [|a l1 IH]; [trivial|].
  intros H. apply IH. exact (adjacent_tail R a _ H).
Qed.

(** The last element of [l1] and the first of [l2] are neighbours in
    [l1 ++ l2]. *)
Lemma adjacent_app_mid {A} (R : A -> A -> Prop) (l1 l2 : list A) (a b : A) :
  last_error l1 = Some a ->
  hd_error l2 = Some b ->
  adjacent R (l1 ++ l2) ->
  R a b.
Proof.
  intros Hlast Hhd. destruct l2 as [|b' l2]; [discriminate|].
  injection Hhd as ->.
  induction l1 as [|x [|y l1] IH].
  - discriminate.
  - injection Hlast as ->. simpl. tauto.
  - rewrite last_error_cons in Hlast. intros H.
    apply (IH Hlast). exact (adjacent_tail R x _ H).
Qed.

(** Whatever holds between the end of each segment and the start of the
    next holds between the end of each module and the start of the
    next. *)
Lemma adjacent_modules (R : Q -> Q -> Prop) (modules : list Module_) :
  List.Forall closed_module modules ->
  adjacent (fun a b => R (seg_end a) (seg_start b))
           (concat (List.map content modules)) ->
  adjacent (fun m1 m2 => R (end_time m1) (start_time m2)) modules.
Proof.
  induction modules as [|m1 [|m2 rest] IH]; [trivial | simpl; trivial |].
  intros Hall Hadj.
  inversion Hall as [|? ? Hm1 Hall']; subst.
  inversion Hall' as [|? ? Hm2 _]; subst.
  split.
  - destruct Hm1 as (_ & last1 & _ & Hlast1 & _ & ->).
    destruct Hm2 as (first2 & _ & Hhd2 & _ & -> & _).
    change (concat (List.map content (m1 :: m2 :: rest)))
      with (content m1 ++ (content m2 ++ concat (List.map content rest))) in Hadj.
    apply (adjacent_app_mid (fun a b => R (seg_end a) (seg_start b))
             (content m1) (content m2 ++ concat (List.map content rest))
             last1 first2 Hlast1); [|exact Hadj].
    destruct (content m2); [discriminate|exact Hhd2].
  - apply IH; [exact Hall'|].
    change (concat (List.map content (m1 :: m2 :: rest)))
      with (content m1 ++ concat (List.map content (m2 :: rest))) in Hadj.
    exact (adjacent_app_r _ _ _ Hadj).
Qed.

(** C2.  On a cache miss [structure_transcript] returns, and the
    contents of the modules it returns, put end to end in the order of
    emission, are exactly the transcript it was given: every segment
    once, in its place.  In particular an empty transcript gives no
    module at all. *)
Theorem structure_transcript_partitions (video : VideoInfo) (w : World) :
  module_cache_miss video w ->
  exists modules w',
    structure_transcript env (Some video) w = (Ok modules, w') /\
    concat (List.map content modules) = transcript video /\
    (transcript video = [] -> modules = []).
Proof.
  intros Hmiss.
  destruct (structure_transcript_run env video w Hmiss)
    as (modules & w' & Hrun & Hall & Hcat & _).
  exists modules, w'. split; [exact Hrun|]. split; [exact Hcat|].
  intros Hnil. apply closed_modules_of_nothing; [exact Hall|congruence].
Qed.

(** C3, as amended.  On a cache miss every module returned has a
    non-empty content, starts where its first segment starts and ends
    where its last segment ends, and the modules are consecutive runs of
    the transcript that cover it exactly once.  In time the modules
    inherit what the segments have: if no segment ends after the next
    one starts, no module ends after the next one starts; if each
    segment ends exactly where the next one starts, so does each
    module. *)
Theorem structure_transcript_module_invariant (video : VideoInfo) (w : World) :
  module_cache_miss video w ->
  exists modules w',
    structure_transcript env (Some video) w = (Ok modules, w') /\
    List.Forall (fun m => content m <> [] /\ closed_module m) modules /\
    concat (List.map content modules) = transcript video /\
    (adjacent (fun a b => seg_end a <= seg_start b)%Q (transcript video) ->
     adjacent (fun m1 m2 => end_time m1 <= start_time m2)%Q modules) /\
    (adjacent (fun a b => seg_end a = seg_start b) (transcript video) ->
     adjacent (fun m1 m2 => end_time m1 = start_time m2) modules).
Proof.
  intros Hmiss.
  destruct (structure_transcript_run env video w Hmiss)
    as (modules & w' & Hrun & Hall & Hcat & _).
  exists modules, w'. split; [exact Hrun|].
  split.
  - eapply List.Forall_impl; [|exact Hall].
    intros m Hm. split; [apply closed_module_nonempty|]; exact Hm.
  - split; [exact Hcat|]. rewrite <- Hcat.
    split; intros Hadj.
    + exact (adjacent_modules Qle modules Hall Hadj).
    + exact (adjacent_modules eq modules Hall Hadj).
Qed.

End SegmentationClaims.

(** ** The boundary case *)

Section Boundary.

Context (env : Env).

Lemma for_each_cons st entry rest w :
  for_each env st (entry :: rest) w =
    match loop_body env st entry w with
    | (Ok st', w') => for_each env st' rest w'
    | (Raise e, w') => (Raise e, w')
    end.
Proof. reflexivity. Qed.

Lemma loop_body_seed ms cur entry w :
  content cur = [] ->
  loop_body env (ms, cur) entry w =
    (Ok (ms, {| title := title cur; content := [entry];
                start_time := seg_start entry; end_time := end_time cur |}), w).
Proof. intros H. unfold loop_body. rewrite H. reflexivity. Qed.

Lemma loop_body_append ms cur entry w :
  content cur <> [] ->
  (seg_start entry - start_time cur < CHUNK_SIZE)%Q ->
  loop_body env (ms, cur) entry w =
    (Ok (ms, {| title := title cur; content := content cur ++ [entry];
                start_time := start_time cur; end_time := end_time cur |}), w).
Proof.
  intros H Hlt. unfold loop_body.
  destruct (content cur) as [|first rest]; [contradiction|].
  destruct (Qlt_le_dec _ _) as [_|Hge]; [reflexivity|].
  exfalso. exact (Qlt_not_le _ _ Hlt Hge).
Qed.

Lemma loop_body_close ms cur entry w :
  content cur <> [] ->
  (CHUNK_SIZE <= seg_start entry - start_time cur)%Q ->
  exists t last w',
    loop_body env (ms, cur) entry w =
      (Ok (ms ++ [{| title := t; content := content cur;
                     start_time := start_time cur; end_time := seg_end last |}],
           {| title := EmptyString; content := [entry];
              start_time := seg_start entry; end_time := 0 |}), w') /\
    last_error (content cur) = Some last.
Proof.
  intros H Hge. unfold loop_body.
  destruct (content cur) as [|first rest] eqn:Hc; [contradiction|].
  destruct (Qlt_le_dec _ _) as [Hlt|_].
  - exfalso. exact (Qlt_not_le _ _ Hlt Hge).
  - destruct (finalize_run env cur first rest w Hc) as (t & last & w' & Hfin & Hlast & _).
    exists t, last, w'. unfold bind. rewrite Hfin, <- Hc. auto.
Qed.

Lemma finalize_nonempty cur w :
  content cur <> [] ->
  exists t last w',
    finalize env cur w =
      (Ok {| title := t; content := content cur;
             start_time := start_time cur; end_time := seg_end last |}, w') /\
    last_error (content cur) = Some last.
Proof.
  intros H. destruct (content cur) as [|first rest] eqn:Hc; [contradiction|].
  destruct (finalize_run env cur first rest w Hc) as (t & last & w' & Hfin & Hlast & _).
  exists t, last, w'. rewrite <- Hc. auto.
Qed.

(** C4.  With [CHUNK_SIZE = 600], five segments of ten seconds starting
    at 0, 10, 20, 600 and 610 are split, on a cache miss, into exactly two
    modules: the first three segments with [start_time = 0], and the
    last two with [start_time = 600].  The segment that starts exactly
    [CHUNK_SIZE] after the module does closes it, the test being a
    strict [<].  The titles are whatever title generation returns. *)
Theorem boundary_segments_make_two_modules (video : VideoInfo) (w : World)
    (i1 i2 i3 i4 i5 : Z) (t1 t2 t3 t4 t5 : string) :
  transcript video =
    [seg i1 t1 0 10; seg i2 t2 10 20; seg i3 t3 20 30;
     seg i4 t4 600 610; seg i5 t5 610 620] ->
  module_cache_miss video w ->
  exists title1 title2 w',
    structure_transcript env (Some video) w =
      (Ok [ {| title := title1;
               content := [seg i1 t1 0 10; seg i2 t2 10 20; seg i3 t3 20 30];
               start_time := 0; end_time := 30 |};
            {| title := title2;
               content := [seg i4 t4 600 610; seg i5 t5 610 620];
               start_time := 600; end_time := 620 |} ], w').
Proof.
  intros Htr Hmiss. rewrite structure_transcript_on_miss by exact Hmiss.
  rewrite Htr. unfold bind at 1 2. unfold segment_transcript. unfold bind at 1.
  rewrite for_each_cons, loop_body_seed by reflexivity. tidy.
  rewrite for_each_cons, loop_body_append by (tidy; easy). tidy.
  rewrite for_each_cons, loop_body_append by (tidy; easy). tidy.
  rewrite for_each_cons.
  match goal with
  | |- context [loop_body env (?ms, ?cur) ?e ?w0] =>
      destruct (loop_body_close ms cur e w0)
        as (title1 & last1 & w1 & Hclose & Hlast1);
        [tidy; easy | tidy; easy | rewrite Hclose; clear Hclose]
  end.
  tidy. injection Hlast1 as <-.
  rewrite for_each_cons, loop_body_append by (tidy; easy). tidy.
  cbn [for_each ret]. tidy. unfold bind.
  match goal with
  | |- context [finalize env ?cur ?w0] =>
      destruct (finalize_nonempty cur w0)
        as (title2 & last2 & w2 & Hfin & Hlast2);
        [tidy; easy | rewrite Hfin; clear Hfin]
  end.
  tidy. injection Hlast2 as <-. unfold ret.
  match goal with
  | |- context [save_modules_to_cache ?k ?ms ?w0] =>
      destruct (save_modules_to_cache_run k ms w0) as (w3 & Hsave & _);
      rewrite Hsave
  end.
  exists title1, title2, w3. reflexivity.
Qed.
End Boundary.

(** ** Segmentation on concrete transcripts *)

Lemma empty_world_misses segments :
  module_cache_miss (video_of segments) empty_world.
Proof. left. reflexivity. Qed.

Lemma structure_transcript_partitions_witness :
  module_cache_miss (video_of boundary_transcript) empty_world /\
  exists modules w',
    structure_transcript offline (Some (video_of boundary_transcript)) empty_world
      = (Ok modules, w') /\
    concat (List.map content modules) = transcript (video_of boundary_transcript) /\
    (transcript (video_of boundary_transcript) = [] -> modules = []).
Proof.
  assert (Hmiss : module_cache_miss (video_of boundary_transcript) empty_world)
    by (left; reflexivity).
  split; [exact Hmiss|].
  exact (structure_transcript_partitions offline _ _ Hmiss).
Defined.

Lemma boundary_transcript_in_order :
  adjacent (fun a b => seg_end a <= seg_start b)%Q boundary_transcript.
Proof. simpl. unfold Qle; simpl. lia. Qed.

Lemma structure_transcript_module_invariant_witness :
  module_cache_miss (video_of boundary_transcript) empty_world /\
  adjacent (fun a b => seg_end a <= seg_start b)%Q
    (transcript (video_of boundary_transcript)) /\
  exists modules w',
    structure_transcript offline (Some (video_of boundary_transcript)) empty_world
      = (Ok modules, w') /\
    List.Forall (fun m => content m <> [] /\ closed_module m) modules /\
    concat (List.map content modules) = transcript (video_of boundary_transcript) /\
    adjacent (fun m1 m2 => end_time m1 <= start_time m2)%Q modules.
Proof.
  assert (Hmiss : module_cache_miss (video_of boundary_transcript) empty_world)
    by (left; reflexivity).
  assert (Hord : adjacent (fun a b => seg_end a <= seg_start b)%Q
                   (transcript (video_of boundary_transcript)))
    by (simpl; unfold Qle; simpl; lia).
  split; [exact Hmiss|]. split; [exact Hord|].
  destruct (structure_transcript_module_invariant offline _ _ Hmiss)
    as (modules & w' & Hrun & Hall & Hcat & Hle & _).
  exists modules, w'. auto.
Defined.

Lemma boundary_segments_make_two_modules_witness :
  transcript (video_of boundary_transcript) =
    [seg 1 "Content 1" 0 10; seg 2 "Content 2" 10 20; seg 3 "Content 3" 20 30;
     seg 4 "Content 4" 600 610; seg 5 "Content 5" 610 620] /\
  module_cache_miss (video_of boundary_transcript) empty_world /\
  exists title1 title2 w',
    structure_transcript offline (Some (video_of boundary_transcript)) empty_world =
      (Ok [ {| title := title1;
               content := [seg 1 "Content 1" 0 10; seg 2 "Content 2" 10 20;
                           seg 3 "Content 3" 20 30];
               start_time := 0; end_time := 30 |};
            {| title := title2;
               content := [seg 4 "Content 4" 600 610; seg 5 "Content 5" 610 620];
               start_time := 600; end_time := 620 |} ], w').
Proof.
  assert (Hmiss : module_cache_miss (video_of boundary_transcript) empty_world)
    by (left; reflexivity).
  split; [reflexivity|]. split; [exact Hmiss|].
  exact (boundary_segments_make_two_modules offline
           (video_of boundary_transcript) empty_world 1 2 3 4 5
           "Content 1" "Content 2" "Content 3" "Content 4" "Content 5"
           eq_refl Hmiss).
Defined.

(** The transcript [overlapping_transcript] is well formed: starts do not
    decrease and no segment ends before it starts. *)
Lemma overlapping_transcript_well_formed :
  adjacent (fun a b => seg_start a <= seg_start b)%Q overlapping_transcript /\
  List.Forall (fun a => seg_start a <= seg_end a)%Q overlapping_transcript.
Proof.
  split; [simpl; unfold Qle; simpl; lia|].
  repeat constructor; unfold Qle; simpl; lia.
Qed.

(** C3 as stated fails on [overlapping_transcript]: the first module is
    still running when the second starts, and the second ends long before
    the third starts. *)
Lemma overlapping_segments_give_overlapping_modules :
  let m1 := {| title := "a"; content := [seg 1 "a" 0 700];
               start_time := 0; end_time := 700 |} in
  let m2 := {| title := "b"; content := [seg 2 "b" 600 610];
               start_time := 600; end_time := 610 |} in
  let m3 := {| title := "c"; content := [seg 3 "c" 1300 1310];
               start_time := 1300; end_time := 1310 |} in
  fst (structure_transcript offline (Some (video_of overlapping_transcript)) empty_world)
    = Ok [m1; m2; m3] /\
  (start_time m2 < end_time m1)%Q /\
  (end_time m2 < start_time m3)%Q /\
  ~ adjacent (fun a b => end_time a <= start_time b)%Q [m1; m2; m3] /\
  ~ adjacent (fun a b => end_time a = start_time b) [m1; m2; m3].
Proof.
  split; [vm_compute; reflexivity|].
  split; [reflexivity|]. split; [reflexivity|].
  split; simpl.
  - intros [H _]. revert H. unfold Qle; simpl. lia.
  - intros [H _]. discriminate H.
Qed.

(** ** Title fallback *)

Section TitleClaims.

Context (env : Env).

(** C5, as amended.  When the title request yields no usable title,
    [generate_module_title] returns a function of the text alone: with
    more than ten whitespace-delimited words, the first ten joined by
    single spaces and followed by [...]; with ten words or fewer, the
    text itself, unchanged, surrounding whitespace included.  For
    [This is a test sentence.] the title is exactly that sentence. *)
Theorem title_falls_back_to_leading_words (content : list Segment) (w : World) :
  let full_text := full_text_of content in
  let words := Py.split full_text in
  no_usable_title
    (chat_completion env (List.length (trace w)) TITLE_MODEL (TitlePrompt full_text)) ->
  exists t,
    generate_module_title env content w =
      (Ok t, record_event (LlmCall TITLE_MODEL (TitlePrompt full_text)) w) /\
    ((10 < List.length words)%nat -> t = (Py.join " " (firstn 10 words) ++ "...")%string) /\
    ((List.length words <= 10)%nat -> t = full_text) /\
    (full_text = "This is a test sentence." -> t = "This is a test sentence.").
Proof.
  intros full_text words Hfail.
  exists (fallback_title full_text).
  assert (Hrun : generate_module_title env content w =
            (Ok (fallback_title full_text),
             record_event (LlmCall TITLE_MODEL (TitlePrompt full_text)) w)).
  { unfold generate_module_title, try_except, bind.
    rewrite generate_title_run. fold full_text.
    destruct (chat_completion env _ _ _) as [|[body|]]; simpl in *;
      [reflexivity | | reflexivity].
    rewrite Hfail. reflexivity. }
  split; [exact Hrun|].
  unfold fallback_title. fold words.
  destruct (10 <? List.length words)%nat eqn:Hlen.
  - apply Nat.ltb_lt in Hlen.
    split; [reflexivity|]. split; [lia|].
    intros Heq. exfalso. subst words. rewrite Heq in Hlen.
    vm_compute in Hlen. lia.
  - apply Nat.ltb_ge in Hlen.
    split; [lia|]. split; [reflexivity|]. intros Heq; exact Heq.
Qed.

End TitleClaims.

Lemma title_falls_back_to_leading_words_witness :
  no_usable_title
    (chat_completion offline (List.length (trace empty_world)) TITLE_MODEL
       (TitlePrompt (full_text_of [seg 1 "This is a test sentence." 0 10]))) /\
  exists t,
    generate_module_title offline [seg 1 "This is a test sentence." 0 10] empty_world =
      (Ok t, record_event
               (LlmCall TITLE_MODEL
                  (TitlePrompt (full_text_of [seg 1 "This is a test sentence." 0 10])))
               empty_world) /\
    t = "This is a test sentence.".
Proof.
  assert (Hfail : no_usable_title
            (chat_completion offline (List.length (trace empty_world)) TITLE_MODEL
               (TitlePrompt (full_text_of [seg 1 "This is a test sentence." 0 10]))))
    by (simpl; exact I).
  split; [exact Hfail|].
  destruct (title_falls_back_to_leading_words offline
              [seg 1 "This is a test sentence." 0 10] empty_world Hfail)
    as (t & Hrun & _ & _ & Hsentence).
  exists t. split; [exact Hrun|]. apply Hsentence. reflexivity.
Defined.

(** A text of twelve words: the first ten and the ellipsis. *)
Example fallback_title_of_twelve_words :
  fst (generate_module_title offline
         [seg 1 "one two three four five six" 0 5;
          seg 2 "seven eight nine ten eleven twelve" 5 10] empty_world)
  = Ok "one two three four five six seven eight nine ten...".
Proof. vm_compute. reflexivity. Qed.

(** C5 as stated fails on a text with surrounding whitespace, such as the
    segment texts of Whisper, which start with a space: the title is the
    text as it is, not the trimmed text. *)
Lemma fallback_title_keeps_surrounding_whitespace :
  let content := [seg 1 " Hello world. " 0 5] in
  (List.length (Py.split (full_text_of content)) <= 10)%nat /\
  no_usable_title
    (chat_completion offline (List.length (trace empty_world)) TITLE_MODEL
       (TitlePrompt (full_text_of content))) /\
  fst (generate_module_title offline content empty_world) = Ok " Hello world. " /\
  Py.strip (full_text_of content) = "Hello world." /\
  fst (generate_module_title offline content empty_world)
    <> Ok (Py.strip (full_text_of content)).
Proof.
  split; [vm_compute; lia|]. split; [exact I|].
  split; [vm_compute; reflexivity|]. split; [vm_compute; reflexivity|].
  vm_compute. discriminate.
Qed.

(** ** Quiz generation *)

Section QuizGenerationClaims.

Context (env : Env).

Lemma nonempty_true s : s <> EmptyString -> Py.nonempty s = true.
Proof. destruct s; [contradiction|reflexivity]. Qed.

(** The body of [generate_quiz_questions] once the guard is passed, in
    terms of the reply of the chat endpoint. *)
Lemma generate_quiz_questions_run text difficulty n w :
  text <> EmptyString ->
  (1 <= n)%Z ->
  generate_quiz_questions env text difficulty n w =
    (Ok match chat_completion env (List.length (trace w)) QUIZ_MODEL
                (QuizPrompt text difficulty n) with
        | ApiResponse (Some content) =>
            match search_json_block content with
            | Some block =>
                match json_loads env block with
                | Some parsed => if has_len parsed then parsed else JArr []
                | None => JArr []
                end
            | None => JArr [create_fallback_question text]
            end
        | _ => JArr []
        end,
     record_event (LlmCall QUIZ_MODEL (QuizPrompt text difficulty n)) w).
Proof.
  intros Htext Hn. unfold generate_quiz_questions.
  rewrite (nonempty_true _ Htext).
  replace (n <? 1)%Z with false by (symmetry; apply Z.ltb_ge; lia).
  cbn [negb orb]. unfold try_except, bind.
  rewrite call_nebius_llm_run.
  destruct (chat_completion env _ _ _) as [|[content|]]; try reflexivity.
  cbn [message_content ret].
  destruct (search_json_block content) as [block|]; [|reflexivity].
  destruct (json_loads env block) as [parsed|]; [|reflexivity].
  cbn [ret]. destruct (has_len parsed); reflexivity.
Qed.

(** C7.  When the request is made (the text is not empty and at least
    one question is asked for), the chat endpoint answers, and the
    completion has no fenced block tagged [json], the result is a list
    of exactly one question: its [question] is built from the first 15
    characters of the text, its [options] have exactly the keys [A],
    [B], [C], [D], its [correct_answer] is [A], and its [explanation]
    says that it is a fallback. *)
Theorem quiz_fallback_without_json_block
    (text difficulty : string) (n : Z) (w : World) (completion : string) :
  text <> EmptyString ->
  (1 <= n)%Z ->
  chat_completion env (List.length (trace w)) QUIZ_MODEL (QuizPrompt text difficulty n)
    = ApiResponse (Some completion) ->
  search_json_block completion = None ->
  exists question options w',
    generate_quiz_questions env text difficulty n w = (Ok (JArr [JObj question]), w') /\
    field "question" question
      = Some (JStr ("What is the main focus of " ++ Py.take 15 text ++ "?")) /\
    field "options" question = Some (JObj options) /\
    List.map fst options = ["A"; "B"; "C"; "D"] /\
    field "correct_answer" question = Some (JStr "A") /\
    field "explanation" question
      = Some (JStr "Fallback question due to generation error.").
Proof.
  intros Htext Hn Hreply Hblock.
  rewrite (generate_quiz_questions_run _ _ _ _ Htext Hn), Hreply, Hblock.
  unfold create_fallback_question.
  eexists _, _, _. split; [reflexivity|].
  repeat split.
Qed.

(** [s[:n]] is the text itself when it is short, and its first [n]
    characters otherwise. *)
Lemma take_prefix n s : exists rest, s = (Py.take n s ++ rest)%string.
Proof.
  revert s; induction n as [|n IH]; intros [|c s]; simpl; eauto.
  destruct (IH s) as [rest Hrest]. exists rest.
  change (String c s = String c (Py.take n s ++ rest)%string).
  now rewrite <- Hrest.
Qed.

Lemma take_length n s :
  String.length (Py.take n s) = Nat.min n (String.length s).
Proof.
  revert s; induction n as [|n IH]; intros [|c s]; simpl; auto.
Qed.

(** C8.  [generate_quiz_questions] always returns a value and never an
    exception.  With an empty text or fewer than one question asked for,
    it returns the empty list at once, the world untouched, so without
    any request to the model.  When the client returns nothing, or
    reading or parsing the response raises, it returns the empty
    list. *)
Theorem generate_quiz_questions_never_raises
    (text difficulty : string) (n : Z) (w : World) :
  (exists questions w',
     generate_quiz_questions env text difficulty n w = (Ok questions, w')) /\
  (text = EmptyString \/ (n < 1)%Z ->
     generate_quiz_questions env text difficulty n w = (Ok (JArr []), w)) /\
  (quiz_parsing_raises env
     (chat_completion env (List.length (trace w)) QUIZ_MODEL
        (QuizPrompt text difficulty n)) ->
     fst (generate_quiz_questions env text difficulty n w) = Ok (JArr [])).
Proof.
  assert (Hguard : text = EmptyString \/ (n < 1)%Z ->
            generate_quiz_questions env text difficulty n w = (Ok (JArr []), w)).
  { intros [-> | Hn]; unfold generate_quiz_questions; [reflexivity|].
    replace (n <? 1)%Z with true by (symmetry; apply Z.ltb_lt; exact Hn).
    rewrite orb_true_r. reflexivity. }
  destruct (string_dec text EmptyString) as [Hempty|Htext];
    [|destruct (Z_lt_le_dec n 1) as [Hsmall|Hn]].
  - split; [|split]; [eauto | exact Hguard | intros _; now rewrite Hguard by auto].
  - split; [|split]; [eauto | exact Hguard | intros _; now rewrite Hguard by auto].
  - rewrite (generate_quiz_questions_run _ _ _ _ Htext Hn).
    split; [eauto|]. split; [intros [?|?]; [contradiction|lia]|].
    unfold quiz_parsing_raises. simpl.
    destruct (chat_completion env _ _ _) as [|[content|]]; try reflexivity.
    destruct (search_json_block content) as [block|]; [|contradiction].
    destruct (json_loads env block) as [parsed|]; [|reflexivity].
    intros ->. reflexivity.
Qed.

End QuizGenerationClaims.

Lemma unclosed_block_is_no_block : search_json_block unclosed_block = None.
Proof. vm_compute. reflexivity. Qed.

Lemma quiz_fallback_without_json_block_witness :
  "Test text" <> EmptyString /\
  (1 <= 2)%Z /\
  chat_completion (answering unclosed_block) (List.length (trace empty_world))
    QUIZ_MODEL (QuizPrompt "Test text" "medium" 2)
    = ApiResponse (Some unclosed_block) /\
  search_json_block unclosed_block = None /\
  exists question options w',
    generate_quiz_questions (answering unclosed_block) "Test text" "medium" 2 empty_world
      = (Ok (JArr [JObj question]), w') /\
    field "question" question
      = Some (JStr ("What is the main focus of " ++ Py.take 15 "Test text" ++ "?")) /\
    field "options" question = Some (JObj options) /\
    List.map fst options = ["A"; "B"; "C"; "D"] /\
    field "correct_answer" question = Some (JStr "A") /\
    field "explanation" question
      = Some (JStr "Fallback question due to generation error.").
Proof.
  assert (Htext : "Test text" <> EmptyString) by discriminate.
  assert (Hn : (1 <= 2)%Z) by lia.
  assert (Hblock : search_json_block unclosed_block = None)
    by (vm_compute; reflexivity).
  split; [exact Htext|]. split; [exact Hn|]. split; [reflexivity|].
  split; [exact Hblock|].
  exact (quiz_fallback_without_json_block (answering unclosed_block)
           "Test text" "medium" 2 empty_world unclosed_block
           Htext Hn eq_refl Hblock).
Defined.

(** The question of the unit test: a text shorter than 15 characters is
    taken whole. *)
Example fallback_question_of_test_text :
  field "question"
    match create_fallback_question "Test text" with
    | JObj fields => fields
    | _ => []
    end
  = Some (JStr "What is the main focus of Test text?").
Proof. reflexivity. Qed.

Lemma generate_quiz_questions_never_raises_witness :
  quiz_parsing_raises offline
    (chat_completion offline (List.length (trace empty_world)) QUIZ_MODEL
       (QuizPrompt "Test text" "medium" 2)) /\
  (EmptyString = EmptyString \/ (2 < 1)%Z) /\
  fst (generate_quiz_questions offline "Test text" "medium" 2 empty_world) = Ok (JArr []) /\
  generate_quiz_questions offline EmptyString "medium" 2 empty_world
    = (Ok (JArr []), empty_world).
Proof.
  assert (Hraises : quiz_parsing_raises offline
            (chat_completion offline (List.length (trace empty_world)) QUIZ_MODEL
               (QuizPrompt "Test text" "medium" 2))) by (simpl; exact I).
  assert (Hguard : EmptyString = EmptyString \/ (2 < 1)%Z) by (left; reflexivity).
  split; [exact Hraises|]. split; [exact Hguard|].
  split.
  - exact (proj2 (proj2 (generate_quiz_questions_never_raises offline
                           "Test text" "medium" 2 empty_world)) Hraises).
  - exact (proj1 (proj2 (generate_quiz_questions_never_raises offline
                           EmptyString "medium" 2 empty_world)) Hguard).
Defined.

(** ** The quiz entry point and its cache *)

Section QuizCacheClaims.

Context (env : Env).

(** C9.  With no module list cached for the video and no quiz cached
    for the pair of video and title, [get_quiz] raises [ValueError]; it
    returns no value, so no empty list either.  The world is left as it
    was: no model request is made. *)
Theorem get_quiz_without_modules_raises
    (video_id module_title difficulty : string) (w : World) :
  course_modules w !! video_id = None ->
  module_questions w !! (video_id, module_title) = None ->
  get_quiz env video_id module_title difficulty w
    = (Raise (ValueError "No modules found in cache"), w).
Proof.
  intros Hmodules Hquiz.
  unfold get_quiz, get_cached_quiz, generate_all_module_quizzes,
    get_cached_modules, bind, get_world, ret, raise.
  cbn [fst snd]. rewrite Hquiz. cbn [option_map]. rewrite Hmodules. reflexivity.
Qed.

(** C10.  An empty list in a cache counts as a miss.  When the module
    cache holds the empty list for the video, [structure_transcript]
    segments the transcript it was given and stores the result; what it
    returns covers that transcript, so it is not the cached list unless
    the transcript is empty too.  When the quiz cache holds the empty
    list for the pair of video and title, [get_quiz] generates the
    quizzes of all modules again and answers from them. *)
Theorem cached_empty_list_is_a_miss
    (video : VideoInfo) (k : string) (wm : World)
    (video_id module_title difficulty stored : string) (wq : World) :
  extract_video_id (embed_url video) = Some k ->
  course_modules wm !! k = Some [] ->
  module_questions wq !! (video_id, module_title) = Some (stored, JArr []) ->
  (structure_transcript env (Some video) wm = resegment env video wm /\
   exists modules wm',
     structure_transcript env (Some video) wm = (Ok modules, wm') /\
     concat (List.map content modules) = transcript video /\
     course_modules wm' !! k = Some modules) /\
  get_quiz env video_id module_title difficulty wq
    = regenerate env video_id module_title difficulty wq.
Proof.
  intros Hk Hmodules Hquiz.
  assert (Hmiss : module_cache_miss video wm).
  { right. unfold get_cached_modules, bind, get_world, ret. cbn [fst].
    rewrite Hk, Hmodules. reflexivity. }
  split; [split|].
  - exact (structure_transcript_on_miss env video wm Hmiss).
  - destruct (structure_transcript_run env video wm Hmiss)
      as (modules & wm' & Hrun & _ & Hcat & _ & _ & Hstored).
    exists modules, wm'. auto.
  - unfold get_quiz, regenerate, get_cached_quiz, bind, get_world, ret.
    cbn [fst snd]. rewrite Hquiz. reflexivity.
Qed.

(** Two writes for the same video and title leave one row, the second;
    a read returns its questions whatever difficulty they were made
    for. *)
Lemma save_quiz_to_cache_replaces
    (video_id module_title d1 d2 : string) (q1 q2 : json) (w : World) :
  let w1 := snd (save_quiz_to_cache video_id module_title d1 q1 w) in
  let w2 := snd (save_quiz_to_cache video_id module_title d2 q2 w1) in
  module_questions w2
    = <[(video_id, module_title) := (d2, q2)]> (module_questions w) /\
  get_cached_quiz video_id module_title w2 = (Ok (Some q2), w2).
Proof.
  simpl. split.
  - apply insert_insert_eq.
  - unfold get_cached_quiz, bind, get_world, ret. simpl.
    now rewrite lookup_insert_eq.
Qed.

End QuizCacheClaims.

Lemma get_quiz_without_modules_raises_witness :
  course_modules empty_world !! "test_vid_id" = None /\
  module_questions empty_world !! ("test_vid_id", "Intro") = None /\
  get_quiz offline "test_vid_id" "Intro" "medium" empty_world
    = (Raise (ValueError "No modules found in cache"), empty_world).
Proof.
  assert (Hm : course_modules empty_world !! "test_vid_id" = None) by reflexivity.
  assert (Hq : module_questions empty_world !! ("test_vid_id", "Intro") = None)
    by reflexivity.
  split; [exact Hm|]. split; [exact Hq|].
  exact (get_quiz_without_modules_raises offline
           "test_vid_id" "Intro" "medium" empty_world Hm Hq).
Defined.

Lemma cached_empty_list_is_a_miss_witness :
  extract_video_id (embed_url (video_of boundary_transcript)) = Some "test_vid_id" /\
  course_modules world_with_empty_lists !! "test_vid_id" = Some [] /\
  module_questions world_with_empty_lists !! ("test_vid_id", "Intro")
    = Some ("medium", JArr []) /\
  (exists modules wm',
     structure_transcript offline (Some (video_of boundary_transcript))
       world_with_empty_lists = (Ok modules, wm') /\
     concat (List.map content modules) = boundary_transcript /\
     course_modules wm' !! "test_vid_id" = Some modules) /\
  get_quiz offline "test_vid_id" "Intro" "medium" world_with_empty_lists
    = regenerate offline "test_vid_id" "Intro" "medium" world_with_empty_lists.
Proof.
  assert (Hk : extract_video_id (embed_url (video_of boundary_transcript))
               = Some "test_vid_id") by reflexivity.
  assert (Hm : course_modules world_with_empty_lists !! "test_vid_id" = Some [])
    by reflexivity.
  assert (Hq : module_questions world_with_empty_lists !! ("test_vid_id", "Intro")
               = Some ("medium", JArr [])) by reflexivity.
  split; [exact Hk|]. split; [exact Hm|]. split; [exact Hq|].
  destruct (cached_empty_list_is_a_miss offline (video_of boundary_transcript)
              "test_vid_id" world_with_empty_lists
              "test_vid_id" "Intro" "medium" "medium" world_with_empty_lists
              Hk Hm Hq) as [[_ Hmodules] Hquiz].
  split; [exact Hmodules | exact Hquiz].
Defined.

(** With the empty list cached and five segments given, the answer is the
    two modules of the boundary case, not the cached list; with the empty
    list cached for the quiz and an empty module list cached too, the
    answer is an exception, not the cached list. *)
Example empty_lists_are_recomputed :
  List.length
    match fst (structure_transcript offline (Some (video_of boundary_transcript))
                 world_with_empty_lists) with
    | Ok modules => modules
    | Raise _ => []
    end = 2%nat /\
  fst (get_quiz offline "test_vid_id" "Intro" "medium" world_with_empty_lists)
    = Raise (ValueError "No modules found in cache").
Proof. split; vm_compute; reflexivity. Qed.

(** C1, evaluated on the code.  The quiz cache does not tell
    difficulties apart.  In [studio], where the model answers an easy
    request with the JSON list of the string [easy] and a medium request
    with the JSON list of the string [medium], a medium request that
    follows an easy one for the same module is served the easy questions
    from the cache; the table holds one row for the module, made for
    [easy].  Asked first, the medium request would have been given the
    medium questions. *)
Lemma medium_request_is_served_the_easy_quiz :
  let w1 := snd (modules studio "test_vid_id" empty_world) in
  let easy := get_quiz studio "test_vid_id" studio_title "easy" w1 in
  let medium := get_quiz studio "test_vid_id" studio_title "medium" (snd easy) in
  fst easy = Ok (Some (JArr [JStr "easy"])) /\
  fst medium = Ok (Some (JArr [JStr "easy"])) /\
  map_to_list (module_questions (snd medium))
    = [(("test_vid_id", studio_title), ("easy", JArr [JStr "easy"]))] /\
  trace (snd medium) = trace (snd easy) /\
  fst (get_quiz studio "test_vid_id" studio_title "medium" w1)
    = Ok (Some (JArr [JStr "medium"])).
Proof. repeat split; vm_compute; reflexivity. Qed.

(** ** The modules route called twice *)

Section ModulesRouteClaims.

Context (env : Env).

Lemma transcribe_youtube_video_run url w :
  transcribe_youtube_video env url w =
    let w1 := record_event (YtdlExtractInfo url) w in
    match ytdl_extract_info env (List.length (trace w)) url with
    | None => (Ok None, w1)
    | Some info =>
        match transcriptions w !! yt_id info with
        | Some video => (Ok (Some video), w1)
        | None =>
            let w2 := record_event (WhisperTranscribe url) w1 in
            match whisper_transcribe env (List.length (trace w1)) url with
            | None => (Ok None, w2)
            | Some segments =>
                let video_info :=
                  {| vi_title := yt_title info;
                     embed_url := "https://www.youtube.com/embed/" ++ yt_id info;
                     duration := yt_duration info;
                     transcript := segments |} in
                if fits_sqlite_integer (yt_duration info)
                then
                  (Ok (Some video_info),
                   set_transcriptions
                     (<[yt_id info := video_info]> (transcriptions w2)) w2)
                else (Ok None, w2)
            end
        end
    end.
Proof.
  unfold transcribe_youtube_video, extract_info, get_transcription_from_db,
    download_and_transcribe, save_transcription_to_db.
  unfold try_except, bind, get_world, update_world, ret, raise.
  destruct (ytdl_extract_info env _ url) as [info|]; [|reflexivity].
  cbn [transcriptions record_event].
  destruct (transcriptions w !! yt_id info) as [video|]; [reflexivity|].
  cbn [trace].
  destruct (whisper_transcribe env _ url) as [segments|]; [|reflexivity].
  cbn [duration].
  destruct (fits_sqlite_integer (yt_duration info)); reflexivity.
Qed.

(** A transcript that is returned is in the transcript cache afterwards,
    under the id that yt-dlp reported. *)
Lemma transcribe_youtube_video_some url w video w' :
  transcribe_youtube_video env url w = (Ok (Some video), w') ->
  exists info,
    ytdl_extract_info env (List.length (trace w)) url = Some info /\
    transcriptions w' !! yt_id info = Some video.
Proof.
  rewrite transcribe_youtube_video_run. cbv zeta.
  destruct (ytdl_extract_info env _ url) as [info|]; [|discriminate].
  destruct (transcriptions w !! yt_id info) as [cached|] eqn:Hcached.
  - intros [= <- <-]. exists info. auto.
  - destruct (whisper_transcribe env _ url) as [segments|]; [|discriminate].
    destruct (fits_sqlite_integer (yt_duration info)); [|discriminate].
    intros [= <- <-]. exists info. split; [reflexivity|].
    cbn [transcriptions set_transcriptions]. apply lookup_insert_eq.
Qed.

Lemma transcribe_youtube_video_never_raises url w :
  exists video w', transcribe_youtube_video env url w = (Ok video, w').
Proof.
  rewrite transcribe_youtube_video_run. cbv zeta.
  destruct (ytdl_extract_info env _ url) as [info|]; [|eauto].
  destruct (transcriptions w !! yt_id info); [eauto|].
  destruct (whisper_transcribe env _ url); [|eauto].
  destruct (fits_sqlite_integer (yt_duration info)); eauto.
Qed.

(** A non-empty list that [structure_transcript] returns is in the
    module cache afterwards; the transcript cache is not touched. *)
Lemma structure_transcript_caches video w modules w' :
  structure_transcript env (Some video) w = (Ok modules, w') ->
  modules <> [] ->
  transcriptions w' = transcriptions w /\
  forall k, extract_video_id (embed_url video) = Some k ->
            course_modules w' !! k = Some modules.
Proof.
  intros Hrun Hne.
  assert (Hcases :
    (exists k m ms, extract_video_id (embed_url video) = Some k /\
                    course_modules w !! k = Some (m :: ms)) \/
    module_cache_miss video w).
  { unfold module_cache_miss, get_cached_modules, bind, get_world, ret. cbn [fst].
    destruct (extract_video_id (embed_url video)) as [k|]; [|auto].
    destruct (course_modules w !! k) as [[|m ms]|] eqn:Hk; eauto 10. }
  destruct Hcases as [(k & m & ms & Hk & Hhit) | Hmiss].
  - revert Hrun.
    unfold structure_transcript, get_cached_modules, bind, get_world, ret.
    cbn [fst snd]. rewrite Hk, Hhit. intros [= <- <-].
    split; [reflexivity|]. intros k' Hk'. congruence.
  - destruct (structure_transcript_run env video w Hmiss)
      as (modules' & w'' & Hrun' & _ & _ & Ht & _ & Hstored).
    rewrite Hrun in Hrun'. injection Hrun' as <- <-. auto.
Qed.

Lemma extract_video_id_skip c s :
  match_video_id (String c s) = None ->
  extract_video_id (String c s) = extract_video_id s.
Proof. intros H. cbn [extract_video_id]. now rewrite H. Qed.

Lemma extract_video_id_here s v :
  match_video_id s = Some v -> extract_video_id s = Some v.
Proof. intros H. destruct s; cbn [extract_video_id]; now rewrite H. Qed.

(** For an id of eleven characters among letters, digits, [_] and [-],
    the embed URL that [transcribe_youtube_video] builds gives the id
    back: a transcript made for such a video has a usable cache key. *)
Lemma extract_video_id_of_embed_url (id : string) :
  id_chars 11 id = Some id ->
  extract_video_id ("https://www.youtube.com/embed/" ++ id) = Some id.
Proof.
  intros H. unfold String.append. lazy beta iota fix.
  repeat (rewrite extract_video_id_skip by (vm_compute; reflexivity)).
  apply extract_video_id_here.
  unfold match_video_id, prefixed_id.
  change (Py.after_prefix "embed/"
            (String "e" (String "m" (String "b" (String "e"
               (String "d" (String "/" id)))))))
    with (Some id).
  cbv beta iota. rewrite H. reflexivity.
Qed.

(** With the transcript and a non-empty module list in the caches, the
    route asks yt-dlp for the id and answers from the caches. *)
Lemma modules_from_caches video_id w info video k ms :
  video_id <> EmptyString ->
  ytdl_extract_info env (List.length (trace w))
    ("https://www.youtube.com/watch?v=" ++ video_id) = Some info ->
  transcriptions w !! yt_id info = Some video ->
  extract_video_id (embed_url video) = Some k ->
  course_modules w !! k = Some ms ->
  ms <> [] ->
  modules env video_id w =
    (Http200 ms,
     record_event (YtdlExtractInfo ("https://www.youtube.com/watch?v=" ++ video_id)) w).
Proof.
  intros Hid Hinfo Hvideo Hk Hms Hne.
  unfold modules. rewrite (nonempty_true _ Hid). cbn [negb].
  unfold respond, bind.
  rewrite transcribe_youtube_video_run. cbv zeta. rewrite Hinfo, Hvideo.
  unfold structure_transcript, get_cached_modules, bind, get_world, ret.
  cbn [fst snd course_modules record_event]. rewrite Hk, Hms.
  destruct ms as [|m ms]; [contradiction|reflexivity].
Qed.

(** C6, as amended.  Let a first call of the modules route answer with a
    non-empty module list.  If, in the second call for the same video,
    yt-dlp reports the same id again, and the embed URL of the cached
    transcript carries an id that [extract_video_id] finds, then the
    second call answers with the same module list, and all it does
    outside the process is that one request to yt-dlp, made by the
    transcript provider before any cache is read: no transcription, no
    request to a model, no cache write. *)
Theorem modules_second_call_answers_from_the_caches
    (video_id : string) (w0 w1 : World) (ms : list Module_) (info1 info2 : YtInfo) :
  let url := ("https://www.youtube.com/watch?v=" ++ video_id)%string in
  modules env video_id w0 = (Http200 ms, w1) ->
  ms <> [] ->
  ytdl_extract_info env (List.length (trace w0)) url = Some info1 ->
  ytdl_extract_info env (List.length (trace w1)) url = Some info2 ->
  yt_id info2 = yt_id info1 ->
  (forall video, transcriptions w1 !! yt_id info1 = Some video ->
                 extract_video_id (embed_url video) <> None) ->
  modules env video_id w1 = (Http200 ms, record_event (YtdlExtractInfo url) w1).
Proof.
  intros url Hfirst Hne Hinfo1 Hinfo2 Hsame Hextract.
  assert (Hid : video_id <> EmptyString).
  { intros ->. unfold modules in Hfirst. simpl in Hfirst. discriminate. }
  unfold modules in Hfirst. rewrite (nonempty_true _ Hid) in Hfirst.
  cbn [negb] in Hfirst. unfold respond, bind in Hfirst. fold url in Hfirst.
  destruct (transcribe_youtube_video_never_raises url w0) as (fetched & wt & Hfetch).
  rewrite Hfetch in Hfirst.
  destruct fetched as [video|]; [|discriminate].
  destruct (structure_transcript env (Some video) wt) as [[modules'|e] w1'] eqn:Hstruct;
    [|discriminate].
  injection Hfirst as -> ->.
  destruct (transcribe_youtube_video_some url w0 video wt Hfetch)
    as (info & Hinfo & Hcached).
  rewrite Hinfo1 in Hinfo. injection Hinfo as <-.
  destruct (structure_transcript_caches video wt ms w1 Hstruct Hne)
    as (Htranscripts & Hstored).
  rewrite <- Htranscripts in Hcached.
  destruct (extract_video_id (embed_url video)) as [k|] eqn:Hk;
    [|exfalso; exact (Hextract video Hcached Hk)].
  apply (modules_from_caches video_id w1 info2 video k ms); auto.
  now rewrite Hsame.
Qed.

End ModulesRouteClaims.

Lemma modules_second_call_answers_from_the_caches_witness :
  let first := modules studio "test_vid_id" empty_world in
  let info := {| yt_id := "test_vid_id"; yt_title := "Test Video"; yt_duration := 120 |} in
  (exists ms, first = (Http200 ms, snd first) /\ ms <> [] /\
     modules studio "test_vid_id" (snd first)
       = (Http200 ms, record_event (YtdlExtractInfo studio_url) (snd first))) /\
  ytdl_extract_info studio (List.length (trace empty_world)) studio_url = Some info /\
  ytdl_extract_info studio (List.length (trace (snd first))) studio_url = Some info /\
  yt_id info = yt_id info /\
  (forall video, transcriptions (snd first) !! yt_id info = Some video ->
                 extract_video_id (embed_url video) <> None).
Proof.
  intros first info.
  assert (Hextract : forall video,
            transcriptions (snd first) !! yt_id info = Some video ->
            extract_video_id (embed_url video) <> None).
  { intros video Hvideo. vm_compute in Hvideo. injection Hvideo as <-.
    vm_compute. discriminate. }
  split; [|repeat split; exact Hextract].
  eexists. split; [vm_compute; reflexivity|].
  split; [discriminate|].
  refine (modules_second_call_answers_from_the_caches studio "test_vid_id"
            empty_world (snd first) _ info info _ _ eq_refl eq_refl eq_refl Hextract).
  - vm_compute. reflexivity.
  - discriminate.
Defined.

(** C6 as stated fails in [studio]: the second call for the same video,
    answered from the module cache with the same list, reaches the
    transcript provider again, which asks yt-dlp once more; over the two
    calls the provider is entered twice, not at most once. *)
Lemma second_call_reaches_the_provider_again :
  let first := modules studio "test_vid_id" empty_world in
  let second := modules studio "test_vid_id" (snd first) in
  (exists ms, fst first = Http200 ms /\ ms <> [] /\ fst second = Http200 ms) /\
  trace (snd second) = trace (snd first) ++ [YtdlExtractInfo studio_url] /\
  List.length (List.filter is_provider_call (trace (snd second))) = 2%nat.
Proof.
  split; [|split; vm_compute; reflexivity].
  eexists. split; [vm_compute; reflexivity|].
  split; [discriminate | vm_compute; reflexivity].
Qed.

(** * Further properties of the code *)

(** ** Chunks *)

Section Chunks.

Context (env : Env).

Lemma zero_offset (x : Q) : (x - x < CHUNK_SIZE)%Q.
Proof. unfold Qminus. rewrite Qplus_opp_r. reflexivity. Qed.

Lemma adjacent_snoc {A} (R : A -> A -> Prop) (l : list A) (a b : A) :
  adjacent R (l ++ [a]) -> R a b -> adjacent R ((l ++ [a]) ++ [b]).
Proof.
  intros Hl Hab. induction l as [|x [|y l] IH].
  - simpl. auto.
  - simpl in *. tauto.
  - change (R x y /\ adjacent R (((y :: l) ++ [a]) ++ [b])).
    change (R x y /\ adjacent R ((y :: l) ++ [a])) in Hl.
    split; [tauto|]. apply IH. tauto.
Qed.

Lemma adjacent_map {A B} (f : A -> B) (R : B -> B -> Prop) (l : list A) :
  adjacent R (List.map f l) <-> adjacent (fun a b => R (f a) (f b)) l.
Proof.
  induction l as [|x [|y l] IH]; [simpl; tauto | simpl; tauto |].
  change (R (f x) (f y) /\ adjacent R (List.map f (y :: l))
          <-> R (f x) (f y) /\ adjacent (fun a b => R (f a) (f b)) (y :: l)).
  tauto.
Qed.

(** Closing the accumulator makes one title request and nothing else. *)
Lemma finalize_exact cur w :
  content cur <> [] ->
  exists finished,
    finalize env cur w = (Ok finished, record_event (title_request cur) w) /\
    content finished = content cur /\
    start_time finished = start_time cur.
Proof.
  intros Hne. unfold finalize, bind, last_item.
  destruct (content cur) as [|first rest] eqn:Hc; [contradiction|].
  destruct (last_error_nonempty first rest) as [last Hl].
  unfold last_error in Hl. rewrite Hl. cbn [ret].
  destruct (generate_module_title_run env (first :: rest) w) as [t Ht].
  rewrite Ht. eexists. split.
  - unfold title_request. rewrite Hc. reflexivity.
  - split; reflexivity.
Qed.

Lemma loop_body_chunks ms cur entry w :
  chunk_invariant ms cur ->
  exists added cur',
    loop_body env (ms, cur) entry w
      = (Ok (ms ++ added, cur'),
         {| transcriptions := transcriptions w;
            course_modules := course_modules w;
            null_key_modules := null_key_modules w;
            module_questions := module_questions w;
            trace := trace w ++ List.map title_request added |}) /\
    chunk_invariant (ms ++ added) cur' /\
    content cur' <> [].
Proof.
  intros (Hms & Hcur & Hopen & Hadj). unfold loop_body.
  destruct (content cur) as [|first rest] eqn:Hc.
  - subst ms. exists [], {| title := title cur; content := [entry];
                             start_time := seg_start entry;
                             end_time := end_time cur |}.
    split.
    + cbn [List.map app ret]. rewrite List.app_nil_r. destruct w; reflexivity.
    + split; [|discriminate].
      split; [constructor|]. split.
      * constructor; [apply zero_offset|constructor].
      * split; [reflexivity|exact I].
  - destruct (Qlt_le_dec (seg_start entry - start_time cur) CHUNK_SIZE) as [Hlt|Hge].
    + exists [], {| title := title cur; content := (first :: rest) ++ [entry];
                    start_time := start_time cur; end_time := end_time cur |}.
      split.
      * cbn [List.map ret]. rewrite !List.app_nil_r. destruct w; reflexivity.
      * split; [|discriminate].
        rewrite List.app_nil_r. split; [exact Hms|]. split.
        -- unfold within_chunk in *. cbn [content start_time]. rewrite Hc in Hcur.
           apply List.Forall_app. split; [exact Hcur|]. constructor; [exact Hlt|constructor].
        -- split.
           ++ unfold open_module in *. rewrite Hc in Hopen. exact Hopen.
           ++ exact Hadj.
    + destruct (finalize_exact cur w) as (finished & Hfin & Hfc & Hfs);
        [rewrite Hc; discriminate|].
      exists [finished], {| title := EmptyString; content := [entry];
                            start_time := seg_start entry; end_time := 0 |}.
      split.
      * unfold bind. rewrite Hfin. cbn [ret List.map].
        unfold title_request, record_event. rewrite Hfc. reflexivity.
      * split; [|discriminate].
        split.
        -- apply List.Forall_app. split; [exact Hms|].
           constructor; [|constructor].
           unfold within_chunk. rewrite Hfc, Hfs. exact Hcur.
        -- split; [constructor; [apply zero_offset|constructor]|].
           split; [reflexivity|].
           cbn [content start_time]. rewrite List.map_app. cbn [List.map].
           rewrite Hfs. apply adjacent_snoc; [exact Hadj|exact Hge].
Qed.

Lemma for_each_chunks entries : forall ms cur w,
  chunk_invariant ms cur ->
  exists added cur',
    for_each env (ms, cur) entries w
      = (Ok (ms ++ added, cur'),
         {| transcriptions := transcriptions w;
            course_modules := course_modules w;
            null_key_modules := null_key_modules w;
            module_questions := module_questions w;
            trace := trace w ++ List.map title_request added |}) /\
    chunk_invariant (ms ++ added) cur' /\
    (entries <> [] -> content cur' <> []).
Proof.
  induction entries as [|entry rest IH]; intros ms cur w Hinv.
  - exists [], cur. cbn [for_each ret List.map]. rewrite !List.app_nil_r.
    split; [destruct w; reflexivity|]. split; [exact Hinv|]. intros H; contradiction.
  - destruct (loop_body_chunks ms cur entry w Hinv) as (a1 & cur1 & Hstep & Hinv1 & Hne1).
    destruct (IH (ms ++ a1) cur1
                {| transcriptions := transcriptions w;
                   course_modules := course_modules w;
                   null_key_modules := null_key_modules w;
                   module_questions := module_questions w;
                   trace := trace w ++ List.map title_request a1 |} Hinv1)
      as (a2 & cur2 & Hrest & Hinv2 & Hne2).
    exists (a1 ++ a2), cur2.
    split.
    + cbn [for_each]. unfold bind. rewrite Hstep, Hrest.
      cbn [transcriptions course_modules null_key_modules module_questions trace].
      now rewrite List.map_app, !List.app_assoc.
    + rewrite List.app_assoc. split; [exact Hinv2|]. intros _.
      destruct rest as [|e rest'].
      * cbn [for_each ret] in Hrest. injection Hrest as Hms Hcur _.
        subst cur2. exact Hne1.
      * apply Hne2. discriminate.
Qed.

(** The loop and the last module: chunk bounds, a chunk between starts,
    and one title request per module, in order. *)
Lemma segment_transcript_chunks entries w :
  exists modules,
    segment_transcript env entries w
      = (Ok modules,
         {| transcriptions := transcriptions w;
            course_modules := course_modules w;
            null_key_modules := null_key_modules w;
            module_questions := module_questions w;
            trace := trace w ++ List.map title_request modules |}) /\
    List.Forall within_chunk modules /\
    adjacent a_chunk_apart (List.map start_time modules).
Proof.
  destruct (for_each_chunks entries [] empty_module w) as (added & cur & Hloop & Hinv & _).
  { split; [constructor|]. split; [constructor|]. split; [exact I|reflexivity]. }
  cbn [app] in Hloop, Hinv.
  destruct Hinv as (Hms & Hcur & Hopen & Hadj).
  unfold segment_transcript, bind. rewrite Hloop.
  destruct (content cur) as [|first rest] eqn:Hc.
  - exists added. subst added. cbn [ret List.map]. rewrite List.app_nil_r.
    split; [destruct w; reflexivity|]. split; constructor.
  - destruct (finalize_exact cur
                {| transcriptions := transcriptions w;
                   course_modules := course_modules w;
                   null_key_modules := null_key_modules w;
                   module_questions := module_questions w;
                   trace := trace w ++ List.map title_request added |})
      as (finished & Hfin & Hfc & Hfs); [rewrite Hc; discriminate|].
    rewrite Hfin. exists (added ++ [finished]). cbn [ret].
    split.
    + unfold record_event. cbn [transcriptions course_modules null_key_modules module_questions trace].
      rewrite List.map_app. cbn [List.map]. rewrite <- List.app_assoc.
      unfold title_request. rewrite Hfc. reflexivity.
    + split.
      * apply List.Forall_app. split; [exact Hms|]. constructor; [|constructor].
        unfold within_chunk. rewrite Hfc, Hfs. exact Hcur.
      * rewrite List.map_app. cbn [List.map]. rewrite Hfs. exact Hadj.
Qed.

End Chunks.

Section ChunkProperties.

Context (env : Env).

(** Everything the loop guarantees, for [structure_transcript] on a
    miss. *)
Lemma structure_transcript_chunks video w :
  module_cache_miss video w ->
  exists modules w',
    structure_transcript env (Some video) w = (Ok modules, w') /\
    List.Forall closed_module modules /\
    concat (List.map content modules) = transcript video /\
    List.Forall within_chunk modules /\
    adjacent a_chunk_apart (List.map start_time modules) /\
    trace w' = trace w ++ List.map title_request modules.
Proof.
  intros Hmiss.
  destruct (structure_transcript_run env video w Hmiss)
    as (modules & w' & Hrun & Hclosed & Hcat & _).
  exists modules, w'. split; [exact Hrun|]. split; [exact Hclosed|]. split; [exact Hcat|].
  rewrite structure_transcript_on_miss in Hrun by exact Hmiss.
  destruct (segment_transcript_chunks env (transcript video) w)
    as (modules' & Hseg & Hin & Hapart).
  unfold bind in Hrun. rewrite Hseg in Hrun.
  destruct (save_modules_to_cache_run (extract_video_id (embed_url video)) modules'
              {| transcriptions := transcriptions w;
                 course_modules := course_modules w;
                 null_key_modules := null_key_modules w;
                 module_questions := module_questions w;
                 trace := trace w ++ List.map title_request modules' |})
    as (w2 & Hsave & _ & _ & Htrace & _).
  rewrite Hsave in Hrun. cbn [ret] in Hrun. injection Hrun as <- <-.
  auto.
Qed.

(** X1.  On a miss, every segment of every module returned starts less
    than [CHUNK_SIZE] seconds after the start of its module. *)
Theorem modules_keep_the_chunk_bound (video : VideoInfo) (w : World) :
  module_cache_miss video w ->
  exists modules w',
    structure_transcript env (Some video) w = (Ok modules, w') /\
    List.Forall
      (fun m => List.Forall
                  (fun s => (seg_start s - start_time m < CHUNK_SIZE)%Q)
                  (content m))
      modules.
Proof.
  intros Hmiss.
  destruct (structure_transcript_chunks video w Hmiss)
    as (modules & w' & Hrun & _ & _ & Hin & _).
  exists modules, w'. auto.
Qed.

(** X2.  On a miss, for a transcript whose segments all start at whole
    numbers of seconds, each module returned after the first starts at
    least [CHUNK_SIZE] seconds after the module before it does: a module
    is closed only by a segment that is a full chunk away from its
    start. *)
Theorem modules_start_a_chunk_apart (video : VideoInfo) (w : World) :
  module_cache_miss video w ->
  whole_seconds (transcript video) ->
  exists modules w',
    structure_transcript env (Some video) w = (Ok modules, w') /\
    adjacent (fun m1 m2 => (CHUNK_SIZE <= start_time m2 - start_time m1)%Q) modules.
Proof.
  intros Hmiss _.
  destruct (structure_transcript_chunks video w Hmiss)
    as (modules & w' & Hrun & _ & _ & _ & Hapart & _).
  exists modules, w'. split; [exact Hrun|].
  apply (adjacent_map start_time a_chunk_apart modules). exact Hapart.
Qed.

(** X3.  On a miss, [structure_transcript] makes exactly one title request
    per module it returns, in the order of the modules, each with the
    texts of the module joined by single spaces, and no other external
    call. *)
Theorem one_title_request_per_module (video : VideoInfo) (w : World) :
  module_cache_miss video w ->
  exists modules w',
    structure_transcript env (Some video) w = (Ok modules, w') /\
    trace w' = trace w ++
      List.map (fun m => LlmCall TITLE_MODEL
                           (TitlePrompt (Py.join " " (List.map seg_text (content m)))))
               modules.
Proof.
  intros Hmiss.
  destruct (structure_transcript_chunks video w Hmiss)
    as (modules & w' & Hrun & _ & _ & _ & _ & Htrace).
  exists modules, w'. auto.
Qed.

Lemma last_cons_default {A} (l : list A) : forall a d : A,
  List.last (a :: l) d = List.last l a.
Proof.
  induction l as [|b l IH]; intros a d; [reflexivity|].
  change (List.last (b :: l) d = List.last (b :: l) a).
  now rewrite !IH.
Qed.

Lemma last_error_last {A} (a : A) (l : list A) :
  last_error (a :: l) = Some (List.last l a).
Proof.
  revert a. induction l as [|b l IH]; intros a; [reflexivity|].
  rewrite last_error_cons, IH. now rewrite last_cons_default.
Qed.

(** X4.  On a miss, a transcript whose segments all start at whole
    numbers of seconds, less than [CHUNK_SIZE] seconds after its first
    segment, gives exactly one module: it holds the whole transcript,
    starts with the first segment and ends with the last. *)
Theorem short_transcript_is_one_module
    (video : VideoInfo) (w : World) (first : Segment) (rest : list Segment) :
  module_cache_miss video w ->
  transcript video = first :: rest ->
  whole_seconds (transcript video) ->
  List.Forall (fun s => (seg_start s - seg_start first < CHUNK_SIZE)%Q) rest ->
  exists t w',
    structure_transcript env (Some video) w =
      (Ok [ {| title := t; content := first :: rest;
               start_time := seg_start first;
               end_time := seg_end (List.last rest first) |} ], w').
Proof.
  intros Hmiss Htr _ Hshort.
  destruct (structure_transcript_chunks video w Hmiss)
    as (modules & w' & Hrun & Hclosed & Hcat & _ & Hapart & _).
  rewrite Htr in Hcat.
  destruct modules as [|m1 [|m2 more]].
  - discriminate.
  - cbn [List.map concat] in Hcat. rewrite List.app_nil_r in Hcat.
    inversion Hclosed as [|? ? (f & l & Hhd & Hlast & Hs & He) _]; subst.
    rewrite Hcat in Hhd, Hlast. injection Hhd as <-.
    rewrite last_error_last in Hlast. injection Hlast as <-.
    exists (title m1), w'. rewrite Hrun. destruct m1; cbn in *. congruence.
  - exfalso.
    inversion Hclosed as [|? ? (f1 & _ & Hhd1 & _ & Hs1 & _) Hclosed']; subst.
    inversion Hclosed' as [|? ? (f2 & _ & Hhd2 & _ & Hs2 & _) _]; subst.
    destruct (content m1) as [|x c1] eqn:Hc1; [discriminate|]. injection Hhd1 as ->.
    destruct (content m2) as [|y c2] eqn:Hc2; [discriminate|]. injection Hhd2 as ->.
    cbn [List.map concat] in Hcat. rewrite Hc1, Hc2 in Hcat.
    injection Hcat as -> Hrest.
    assert (Hin : List.In f2 rest).
    { rewrite <- Hrest. apply List.in_or_app. right. left. reflexivity. }
    pose proof (proj1 (List.Forall_forall _ _) Hshort f2 Hin) as Hlt.
    destruct Hapart as [Hfar _]. unfold a_chunk_apart in Hfar.
    rewrite Hs1, Hs2 in Hfar. exact (Qlt_not_le _ _ Hlt Hfar).
Qed.

End ChunkProperties.

Lemma modules_keep_the_chunk_bound_witness :
  module_cache_miss (video_of boundary_transcript) empty_world /\
  exists modules w',
    structure_transcript offline (Some (video_of boundary_transcript)) empty_world
      = (Ok modules, w') /\
    List.Forall
      (fun m => List.Forall
                  (fun s => (seg_start s - start_time m < CHUNK_SIZE)%Q)
                  (content m))
      modules.
Proof.
  assert (Hmiss : module_cache_miss (video_of boundary_transcript) empty_world)
    by (left; reflexivity).
  split; [exact Hmiss|].
  exact (modules_keep_the_chunk_bound offline _ _ Hmiss).
Defined.

Lemma modules_start_a_chunk_apart_witness :
  module_cache_miss (video_of boundary_transcript) empty_world /\
  whole_seconds (transcript (video_of boundary_transcript)) /\
  exists modules w',
    structure_transcript offline (Some (video_of boundary_transcript)) empty_world
      = (Ok modules, w') /\
    adjacent (fun m1 m2 => (CHUNK_SIZE <= start_time m2 - start_time m1)%Q) modules.
Proof.
  assert (Hmiss : module_cache_miss (video_of boundary_transcript) empty_world)
    by (left; reflexivity).
  assert (Hwhole : whole_seconds (transcript (video_of boundary_transcript)))
    by reflexivity.
  split; [exact Hmiss|]. split; [exact Hwhole|].
  exact (modules_start_a_chunk_apart offline _ _ Hmiss Hwhole).
Defined.

Lemma one_title_request_per_module_witness :
  module_cache_miss (video_of boundary_transcript) empty_world /\
  exists modules w',
    structure_transcript offline (Some (video_of boundary_transcript)) empty_world
      = (Ok modules, w') /\
    trace w' = trace empty_world ++
      List.map (fun m => LlmCall TITLE_MODEL
                           (TitlePrompt (Py.join " " (List.map seg_text (content m)))))
               modules.
Proof.
  assert (Hmiss : module_cache_miss (video_of boundary_transcript) empty_world)
    by (left; reflexivity).
  split; [exact Hmiss|].
  exact (one_title_request_per_module offline _ _ Hmiss).
Defined.

Lemma short_transcript_is_one_module_witness :
  module_cache_miss (video_of short_transcript) empty_world /\
  transcript (video_of short_transcript)
    = seg 1 "This is the first segment." 0 10
      :: [seg 2 "This is the second segment." 10 20] /\
  whole_seconds (transcript (video_of short_transcript)) /\
  List.Forall
    (fun s => (seg_start s - seg_start (seg 1 "This is the first segment." 0 10)
               < CHUNK_SIZE)%Q)
    [seg 2 "This is the second segment." 10 20] /\
  exists t w',
    structure_transcript offline (Some (video_of short_transcript)) empty_world =
      (Ok [ {| title := t; content := short_transcript;
               start_time := 0; end_time := 20 |} ], w').
Proof.
  assert (Hmiss : module_cache_miss (video_of short_transcript) empty_world)
    by (left; reflexivity).
  assert (Hshort : List.Forall
            (fun s => (seg_start s - seg_start (seg 1 "This is the first segment." 0 10)
                       < CHUNK_SIZE)%Q)
            [seg 2 "This is the second segment." 10 20])
    by (repeat constructor).
  assert (Hwhole : whole_seconds (transcript (video_of short_transcript)))
    by reflexivity.
  split; [exact Hmiss|]. split; [reflexivity|]. split; [exact Hwhole|].
  split; [exact Hshort|].
  exact (short_transcript_is_one_module offline (video_of short_transcript) empty_world
           (seg 1 "This is the first segment." 0 10)
           [seg 2 "This is the second segment." 10 20] Hmiss eq_refl Hwhole Hshort).
Defined.

(** ** The module cache seen from [structure_transcript] *)

Section ModuleCacheProperties.

Context (env : Env).

(** X5.  Once [structure_transcript] has returned a non-empty list for a
    video whose embed URL carries an id, any later call for a video with
    that embed URL returns the same list and changes nothing: no title is
    requested, nothing is written, and the transcript passed in is not
    looked at, so a newer transcript of the same video is not segmented
    again. *)
Theorem structure_transcript_answers_again_from_cache
    (video later : VideoInfo) (w w' : World) (modules : list Module_) :
  structure_transcript env (Some video) w = (Ok modules, w') ->
  modules <> [] ->
  extract_video_id (embed_url video) <> None ->
  embed_url later = embed_url video ->
  structure_transcript env (Some later) w' = (Ok modules, w').
Proof.
  intros Hrun Hne Hid Hurl.
  destruct (structure_transcript_caches env video w modules w' Hrun Hne) as [_ Hstored].
  destruct (extract_video_id (embed_url video)) as [k|] eqn:Hk; [|contradiction].
  specialize (Hstored k eq_refl).
  unfold structure_transcript, get_cached_modules, bind, get_world, ret.
  rewrite Hurl, Hk, Hstored.
  destruct modules as [|m ms]; [contradiction|reflexivity].
Qed.

(** X6.  A video whose embed URL carries no id is never served from the
    module cache: whatever the cache holds, the call segments the
    transcript and requests the titles.  The list it returns is stored in
    a row whose key is NULL, one more row on every call; the rows that
    have a key are as before, every lookup gives what it gave before, and
    the next call for the video misses again. *)
Theorem structure_transcript_without_id_is_never_cached
    (video : VideoInfo) (w : World) :
  extract_video_id (embed_url video) = None ->
  exists modules w',
    structure_transcript env (Some video) w = (Ok modules, w') /\
    concat (List.map content modules) = transcript video /\
    trace w' = trace w ++ List.map title_request modules /\
    course_modules w' = course_modules w /\
    null_key_modules w' = null_key_modules w ++ [modules] /\
    (forall key, fst (get_cached_modules key w') = fst (get_cached_modules key w)) /\
    module_cache_miss video w'.
Proof.
  intros Hid.
  assert (Hmiss : module_cache_miss video w).
  { left. unfold get_cached_modules, bind, get_world, ret. cbn [fst].
    now rewrite Hid. }
  destruct (structure_transcript_chunks env video w Hmiss)
    as (modules & w' & Hrun & _ & Hcat & _ & _ & Htrace).
  exists modules, w'. split; [exact Hrun|]. split; [exact Hcat|]. split; [exact Htrace|].
  rewrite structure_transcript_on_miss in Hrun by exact Hmiss.
  destruct (segment_transcript_run env (transcript video) w)
    as (modules' & w1 & Hseg & (_ & Hc & _ & Hn) & _).
  unfold bind in Hrun. rewrite Hseg, Hid in Hrun.
  cbn [save_modules_to_cache update_world ret] in Hrun.
  injection Hrun as <- <-.
  cbn [course_modules null_key_modules set_null_key_modules].
  split; [exact Hc|]. split; [now rewrite Hn|].
  split.
  - intros key. unfold get_cached_modules, bind, get_world, ret.
    cbn [fst course_modules set_null_key_modules]. now rewrite Hc.
  - left. unfold get_cached_modules, bind, get_world, ret. cbn [fst].
    now rewrite Hid.
Qed.

End ModuleCacheProperties.

Lemma structure_transcript_answers_again_from_cache_witness :
  let first :=
    structure_transcript offline (Some (video_of boundary_transcript)) empty_world in
  exists modules,
    first = (Ok modules, snd first) /\
    modules <> [] /\
    extract_video_id (embed_url (video_of boundary_transcript)) <> None /\
    embed_url (video_of short_transcript) = embed_url (video_of boundary_transcript) /\
    structure_transcript offline (Some (video_of short_transcript)) (snd first)
      = (Ok modules, snd first).
Proof.
  intros first.
  assert (Hid : extract_video_id (embed_url (video_of boundary_transcript)) <> None)
    by (vm_compute; discriminate).
  eexists. split; [vm_compute; reflexivity|].
  split; [discriminate|]. split; [exact Hid|]. split; [reflexivity|].
  refine (structure_transcript_answers_again_from_cache offline
            (video_of boundary_transcript) (video_of short_transcript)
            empty_world (snd first) _ _ _ Hid eq_refl).
  - vm_compute. reflexivity.
  - discriminate.
Defined.

Lemma structure_transcript_without_id_is_never_cached_witness :
  let video := {| vi_title := "Test Video"; embed_url := "invalid";
                  duration := 120; transcript := short_transcript |} in
  extract_video_id (embed_url video) = None /\
  exists modules w',
    structure_transcript offline (Some video) world_with_empty_lists = (Ok modules, w') /\
    concat (List.map content modules) = transcript video /\
    course_modules w' = course_modules world_with_empty_lists /\
    null_key_modules w' = null_key_modules world_with_empty_lists ++ [modules] /\
    module_cache_miss video w'.
Proof.
  intros video.
  assert (Hid : extract_video_id (embed_url video) = None) by reflexivity.
  split; [exact Hid|].
  destruct (structure_transcript_without_id_is_never_cached offline video
              world_with_empty_lists Hid)
    as (modules & w' & Hrun & Hcat & _ & Hkeyed & Hnull & _ & Hmiss).
  exists modules, w'. auto.
Defined.

(** ** The transcript provider *)

Section ProviderProperties.

Context (env : Env).

(** X7.  When yt-dlp raises, or when the transcript is not cached and the
    download or the transcription raises, [transcribe_youtube_video]
    returns [None] instead of raising, and the three tables are as
    before: nothing partial is stored. *)
Theorem transcribe_youtube_video_fails_with_none (url : string) (w : World) :
  ytdl_extract_info env (List.length (trace w)) url = None \/
  (exists info,
     ytdl_extract_info env (List.length (trace w)) url = Some info /\
     transcriptions w !! yt_id info = None /\
     whisper_transcribe env (S (List.length (trace w))) url = None) ->
  exists w',
    transcribe_youtube_video env url w = (Ok None, w') /\
    same_tables w w'.
Proof.
  rewrite transcribe_youtube_video_run. cbv zeta.
  intros [Hytdl | (info & Hytdl & Hmiss & Hwhisper)]; rewrite Hytdl.
  - eexists. split; [reflexivity|]. apply same_tables_record.
  - rewrite Hmiss. cbn [trace record_event].
    rewrite List.length_app, Nat.add_1_r, Hwhisper.
    eexists. split; [reflexivity|]. repeat split.
Qed.

(** X8.  Once [transcribe_youtube_video] has returned a transcript, a
    later call for which yt-dlp reports the same id returns the same
    value from the transcript cache: the only external call is the
    request to yt-dlp, nothing is downloaded or transcribed again, and
    no table changes, whatever URL is given and whatever title or
    duration yt-dlp reports this time. *)
Theorem transcribe_youtube_video_answers_again_from_cache
    (url url' : string) (w w' : World) (video : VideoInfo) (info info' : YtInfo) :
  transcribe_youtube_video env url w = (Ok (Some video), w') ->
  ytdl_extract_info env (List.length (trace w)) url = Some info ->
  ytdl_extract_info env (List.length (trace w')) url' = Some info' ->
  yt_id info' = yt_id info ->
  transcribe_youtube_video env url' w'
    = (Ok (Some video), record_event (YtdlExtractInfo url') w').
Proof.
  intros Hfirst Hinfo Hinfo' Hsame.
  destruct (transcribe_youtube_video_some env url w video w' Hfirst)
    as (info0 & Hinfo0 & Hcached).
  rewrite Hinfo in Hinfo0. injection Hinfo0 as <-.
  rewrite transcribe_youtube_video_run. cbv zeta.
  now rewrite Hinfo', Hsame, Hcached.
Qed.

Lemma fits_sqlite_integer_spec (z : Z) :
  fits_sqlite_integer z = true <-> (- 2 ^ 63 <= z < 2 ^ 63)%Z.
Proof.
  unfold fits_sqlite_integer. rewrite andb_true_iff, Z.leb_le, Z.ltb_lt. tauto.
Qed.

(** When the duration that yt-dlp reports does not fit the INTEGER column,
    the transcript that was made is neither stored nor returned. *)
Lemma transcribe_youtube_video_duration_out_of_range
    (url : string) (w : World) (info : YtInfo) (segments : list Segment) :
  ytdl_extract_info env (List.length (trace w)) url = Some info ->
  transcriptions w !! yt_id info = None ->
  whisper_transcribe env (S (List.length (trace w))) url = Some segments ->
  fits_sqlite_integer (yt_duration info) = false ->
  exists w',
    transcribe_youtube_video env url w = (Ok None, w') /\
    same_tables w w' /\
    trace w' = trace w ++ [YtdlExtractInfo url; WhisperTranscribe url].
Proof.
  intros Hinfo Hmiss Hwhisper Hfits.
  rewrite transcribe_youtube_video_run. cbv zeta.
  rewrite Hinfo, Hmiss. cbn [trace record_event].
  rewrite List.length_app, Nat.add_1_r, Hwhisper, Hfits.
  eexists. split; [reflexivity|]. split; [repeat split|].
  cbn [trace record_event]. now rewrite <- List.app_assoc.
Qed.

(** X9.  A transcript made for a video that was not cached, with a
    duration that fits the INTEGER column of the table (a signed 64-bit
    integer), carries what yt-dlp and Whisper returned, is stored under
    the id that yt-dlp reported, and leaves the other entries of the
    transcript cache and the other two tables alone.  When that id has the
    form of a YouTube id (eleven characters among letters, digits, [_] and
    [-]), it is also the key under which [structure_transcript] caches the
    modules of the video. *)
Theorem transcribe_youtube_video_stores_new_transcript
    (url : string) (w : World) (info : YtInfo) (segments : list Segment) :
  ytdl_extract_info env (List.length (trace w)) url = Some info ->
  transcriptions w !! yt_id info = None ->
  whisper_transcribe env (S (List.length (trace w))) url = Some segments ->
  (- 2 ^ 63 <= yt_duration info < 2 ^ 63)%Z ->
  exists video w',
    transcribe_youtube_video env url w = (Ok (Some video), w') /\
    vi_title video = yt_title info /\
    duration video = yt_duration info /\
    transcript video = segments /\
    transcriptions w' = <[yt_id info := video]> (transcriptions w) /\
    course_modules w' = course_modules w /\
    module_questions w' = module_questions w /\
    trace w' = trace w ++ [YtdlExtractInfo url; WhisperTranscribe url] /\
    null_key_modules w' = null_key_modules w /\
    (id_chars 11 (yt_id info) = Some (yt_id info) ->
     extract_video_id (embed_url video) = Some (yt_id info)).
Proof.
  intros Hinfo Hmiss Hwhisper Hfits.
  apply fits_sqlite_integer_spec in Hfits.
  rewrite transcribe_youtube_video_run. cbv zeta.
  rewrite Hinfo, Hmiss. cbn [trace record_event].
  rewrite List.length_app, Nat.add_1_r, Hwhisper, Hfits.
  eexists _, _. split; [reflexivity|].
  cbn [vi_title duration transcript embed_url transcriptions course_modules
       null_key_modules module_questions trace set_transcriptions].
  do 6 (split; [reflexivity|]).
  split; [|split; [reflexivity|apply extract_video_id_of_embed_url]].
  cbn [trace record_event]. now rewrite <- List.app_assoc.
Qed.

End ProviderProperties.

Lemma transcribe_youtube_video_fails_with_none_witness :
  (ytdl_extract_info offline (List.length (trace empty_world)) studio_url = None \/
   (exists info,
      ytdl_extract_info offline (List.length (trace empty_world)) studio_url = Some info /\
      transcriptions empty_world !! yt_id info = None /\
      whisper_transcribe offline (S (List.length (trace empty_world))) studio_url = None)) /\
  exists w',
    transcribe_youtube_video offline studio_url empty_world = (Ok None, w') /\
    same_tables empty_world w'.
Proof.
  assert (Hfail :
    ytdl_extract_info offline (List.length (trace empty_world)) studio_url = None \/
    (exists info,
       ytdl_extract_info offline (List.length (trace empty_world)) studio_url = Some info /\
       transcriptions empty_world !! yt_id info = None /\
       whisper_transcribe offline (S (List.length (trace empty_world))) studio_url = None))
    by (left; reflexivity).
  split; [exact Hfail|].
  exact (transcribe_youtube_video_fails_with_none offline studio_url empty_world Hfail).
Defined.

Lemma transcribe_youtube_video_answers_again_from_cache_witness :
  let first := transcribe_youtube_video studio studio_url empty_world in
  let info := {| yt_id := "test_vid_id"; yt_title := "Test Video"; yt_duration := 120 |} in
  exists video,
    first = (Ok (Some video), snd first) /\
    ytdl_extract_info studio (List.length (trace empty_world)) studio_url = Some info /\
    ytdl_extract_info studio (List.length (trace (snd first)))
      "https://youtu.be/test_vid_id" = Some info /\
    yt_id info = yt_id info /\
    transcribe_youtube_video studio "https://youtu.be/test_vid_id" (snd first)
      = (Ok (Some video),
         record_event (YtdlExtractInfo "https://youtu.be/test_vid_id") (snd first)).
Proof.
  intros first info.
  eexists. split; [vm_compute; reflexivity|].
  split; [reflexivity|]. split; [reflexivity|]. split; [reflexivity|].
  refine (transcribe_youtube_video_answers_again_from_cache studio
            studio_url "https://youtu.be/test_vid_id" empty_world (snd first)
            _ info info _ eq_refl eq_refl eq_refl).
  vm_compute. reflexivity.
Defined.

Lemma transcribe_youtube_video_stores_new_transcript_witness :
  let info := {| yt_id := "test_vid_id"; yt_title := "Test Video"; yt_duration := 120 |} in
  ytdl_extract_info studio (List.length (trace empty_world)) studio_url = Some info /\
  transcriptions empty_world !! yt_id info = None /\
  whisper_transcribe studio (S (List.length (trace empty_world))) studio_url
    = Some short_transcript /\
  (- 2 ^ 63 <= yt_duration info < 2 ^ 63)%Z /\
  id_chars 11 (yt_id info) = Some (yt_id info) /\
  exists video w',
    transcribe_youtube_video studio studio_url empty_world = (Ok (Some video), w') /\
    transcript video = short_transcript /\
    transcriptions w' = <[yt_id info := video]> (transcriptions empty_world) /\
    extract_video_id (embed_url video) = Some (yt_id info).
Proof.
  intros info.
  assert (Hinfo : ytdl_extract_info studio (List.length (trace empty_world)) studio_url
                  = Some info) by reflexivity.
  assert (Hmiss : transcriptions empty_world !! yt_id info = None) by reflexivity.
  assert (Hwhisper : whisper_transcribe studio (S (List.length (trace empty_world)))
                       studio_url = Some short_transcript) by reflexivity.
  assert (Hid : id_chars 11 (yt_id info) = Some (yt_id info)) by reflexivity.
  assert (Hfits : (- 2 ^ 63 <= yt_duration info < 2 ^ 63)%Z) by (simpl; lia).
  split; [exact Hinfo|]. split; [exact Hmiss|]. split; [exact Hwhisper|].
  split; [exact Hfits|]. split; [exact Hid|].
  destruct (transcribe_youtube_video_stores_new_transcript studio studio_url
              empty_world info short_transcript Hinfo Hmiss Hwhisper Hfits)
    as (video & w' & Hrun & _ & _ & Htr & Hstored & _ & _ & _ & _ & Hkey).
  exists video, w'. auto.
Defined.

(** ** [extract_video_id] *)

Lemma after_prefix_sound (p : string) : forall s r,
  Py.after_prefix p s = Some r -> s = (p ++ r)%string.
Proof.
  induction p as [|a p IH]; intros s r H.
  - cbn in H. injection H as ->. reflexivity.
  - destruct s as [|b s]; [discriminate|]. cbn in H.
    destruct (Ascii.eqb a b) eqn:Hab; [|discriminate].
    apply Ascii.eqb_eq in Hab. subst b.
    change (String a s = String a (p ++ r)%string).
    now rewrite (IH s r H).
Qed.

Lemma id_chars_sound (n : nat) : forall s v,
  id_chars n s = Some v ->
  String.length v = n /\
  forallb is_id_char (list_ascii_of_string v) = true /\
  exists post, s = (v ++ post)%string.
Proof.
  induction n as [|n IH]; intros s v H.
  - cbn in H. injection H as <-. repeat split. exists s. reflexivity.
  - destruct s as [|c s]; [discriminate|]. cbn in H.
    destruct (is_id_char c) eqn:Hc; [|discriminate].
    destruct (id_chars n s) as [v'|] eqn:Hv; [|discriminate].
    injection H as <-. destruct (IH s v' Hv) as (Hlen & Hall & post & Hpost).
    split; [cbn; now rewrite Hlen|]. split; [cbn; now rewrite Hc|].
    exists post. change (String c s = String c (v' ++ post)%string). now rewrite <- Hpost.
Qed.

(** What follows the eleven characters does not matter. *)
Lemma id_chars_app (n : nat) : forall id rest,
  id_chars n id = Some id -> id_chars n (id ++ rest)%string = Some id.
Proof.
  induction n as [|n IH]; intros id rest H.
  - cbn in H. injection H as <-. reflexivity.
  - destruct id as [|c id]; [discriminate|]. cbn in H.
    change (id_chars (S n) (String c (id ++ rest)%string) = Some (String c id)).
    cbn. destruct (is_id_char c); [|discriminate].
    destruct (id_chars n id) as [v|] eqn:Hv; [|discriminate].
    injection H as ->. now rewrite (IH id rest Hv).
Qed.

(** A prefix of a run of id characters is a run of id characters. *)
Lemma prefix_of_id_chars (p : string) : forall n s r v,
  Py.after_prefix p s = Some r ->
  id_chars n s = Some v ->
  (String.length p <= n)%nat ->
  id_chars (String.length p) p = Some p.
Proof.
  induction p as [|a p IH]; intros n s r v Hp Hv Hlen; [reflexivity|].
  destruct s as [|b s]; [discriminate|]. cbn in Hp.
  destruct (Ascii.eqb a b) eqn:Hab; [|discriminate].
  apply Ascii.eqb_eq in Hab. subst b.
  destruct n as [|n]; [cbn in Hlen; lia|]. cbn in Hv.
  cbn. destruct (is_id_char a); [|discriminate].
  destruct (id_chars n s) as [v'|] eqn:Hv'; [|discriminate].
  rewrite (IH n s r v' Hp Hv'); [reflexivity|cbn in Hlen; lia].
Qed.

Lemma prefixed_id_of_id (p id rest : string) :
  id_chars 11 id = Some id ->
  (String.length p <= 11)%nat ->
  id_chars (String.length p) p = None ->
  prefixed_id p (id ++ rest)%string = None.
Proof.
  intros Hid Hlen Hbad. unfold prefixed_id.
  destruct (Py.after_prefix p (id ++ rest)%string) as [r|] eqn:Hp; [|reflexivity].
  exfalso.
  pose proof (prefix_of_id_chars p 11 _ r id Hp (id_chars_app 11 id rest Hid) Hlen) as H.
  congruence.
Qed.

Lemma after_prefix_app (p r : string) : Py.after_prefix p (p ++ r)%string = Some r.
Proof.
  induction p as [|a p IH]; [reflexivity|].
  change (Py.after_prefix (String a p) (String a (p ++ r)%string) = Some r).
  cbn. now rewrite Ascii.eqb_refl.
Qed.

(** X10.  For an id of eleven characters among letters, digits, [_] and
    [-], [extract_video_id] gives the id back from an embed URL, a watch
    URL, a short URL and from the id alone, whatever follows the id. *)
Theorem extract_video_id_finds_the_id (id rest : string) :
  id_chars 11 id = Some id ->
  extract_video_id ("https://www.youtube.com/embed/" ++ id ++ rest) = Some id /\
  extract_video_id ("https://www.youtube.com/watch?v=" ++ id ++ rest) = Some id /\
  extract_video_id ("https://youtu.be/" ++ id ++ rest) = Some id /\
  extract_video_id (id ++ rest) = Some id.
Proof.
  intros Hid.
  pose proof (id_chars_app 11 id rest Hid) as H.
  set (tail := (id ++ rest)%string) in *.
  assert (Hhere : forall p, prefixed_id p (p ++ tail)%string = Some id).
  { intros p. unfold prefixed_id. now rewrite after_prefix_app. }
  repeat split.
  - unfold String.append. lazy beta iota fix.
    repeat (rewrite extract_video_id_skip by (vm_compute; reflexivity)).
    apply extract_video_id_here.
    change (match_video_id ("embed/" ++ tail)%string = Some id).
    unfold match_video_id. now rewrite Hhere.
  - unfold String.append. lazy beta iota fix.
    repeat (rewrite extract_video_id_skip by (vm_compute; reflexivity)).
    apply extract_video_id_here.
    change (match_video_id ("watch?v=" ++ tail)%string = Some id).
    unfold match_video_id.
    assert (E1 : prefixed_id "embed/" ("watch?v=" ++ tail)%string = None) by reflexivity.
    now rewrite E1, Hhere.
  - unfold String.append. lazy beta iota fix.
    repeat (rewrite extract_video_id_skip by (vm_compute; reflexivity)).
    apply extract_video_id_here.
    change (match_video_id ("/" ++ tail)%string = Some id).
    unfold match_video_id.
    assert (E1 : prefixed_id "embed/" ("/" ++ tail)%string = None) by reflexivity.
    assert (E2 : prefixed_id "watch?v=" ("/" ++ tail)%string = None) by reflexivity.
    now rewrite E1, E2, Hhere.
  - apply extract_video_id_here. unfold match_video_id. subst tail.
    rewrite (prefixed_id_of_id "embed/" id rest Hid) by (cbn; lia || reflexivity).
    rewrite (prefixed_id_of_id "watch?v=" id rest Hid) by (cbn; lia || reflexivity).
    rewrite (prefixed_id_of_id "/" id rest Hid) by (cbn; lia || reflexivity).
    cbn [or_else]. exact H.
Qed.

Lemma extract_video_id_finds_the_id_witness :
  id_chars 11 "test_vid_id" = Some "test_vid_id" /\
  extract_video_id "https://www.youtube.com/embed/test_vid_id?start=10" = Some "test_vid_id" /\
  extract_video_id "https://www.youtube.com/watch?v=test_vid_id&t=10s" = Some "test_vid_id" /\
  extract_video_id "https://youtu.be/test_vid_id" = Some "test_vid_id" /\
  extract_video_id "test_vid_id" = Some "test_vid_id".
Proof.
  assert (Hid : id_chars 11 "test_vid_id" = Some "test_vid_id") by reflexivity.
  split; [exact Hid|].
  pose proof (extract_video_id_finds_the_id "test_vid_id" "?start=10" Hid) as (H1 & _).
  pose proof (extract_video_id_finds_the_id "test_vid_id" "&t=10s" Hid) as (_ & H2 & _).
  pose proof (extract_video_id_finds_the_id "test_vid_id" EmptyString Hid) as (_ & _ & H3 & H4).
  split; [exact H1|]. split; [exact H2|]. split; [exact H3 | exact H4].
Defined.

Lemma append_assoc3 (a b c : string) : ((a ++ b) ++ c = a ++ (b ++ c))%string.
Proof.
  induction a as [|x a IH]; [reflexivity|].
  change (String x ((a ++ b) ++ c)%string = String x (a ++ (b ++ c))%string).
  now rewrite IH.
Qed.

Lemma match_video_id_sound (s v : string) :
  match_video_id s = Some v ->
  String.length v = 11%nat /\
  forallb is_id_char (list_ascii_of_string v) = true /\
  exists pre post, s = (pre ++ v ++ post)%string.
Proof.
  assert (Hp : forall p, prefixed_id p s = Some v ->
            String.length v = 11%nat /\
            forallb is_id_char (list_ascii_of_string v) = true /\
            exists pre post, s = (pre ++ v ++ post)%string).
  { intros p H. unfold prefixed_id in H.
    destruct (Py.after_prefix p s) as [r|] eqn:Hr; [|discriminate].
    destruct (id_chars_sound 11 r v H) as (Hlen & Hall & post & Hpost).
    split; [exact Hlen|]. split; [exact Hall|].
    exists p, post. rewrite (after_prefix_sound p s r Hr). now rewrite Hpost. }
  unfold match_video_id, or_else.
  destruct (prefixed_id "embed/" s) eqn:H1; [intros [= <-]; eauto|].
  destruct (prefixed_id "watch?v=" s) eqn:H2; [intros [= <-]; eauto|].
  destruct (prefixed_id "/" s) eqn:H3; [intros [= <-]; eauto|].
  intros H. destruct (id_chars_sound 11 s v H) as (Hlen & Hall & post & Hpost).
  split; [exact Hlen|]. split; [exact Hall|]. exists EmptyString, post. exact Hpost.
Qed.

(** X11.  Whatever [extract_video_id] returns is a piece of the URL made
    of exactly eleven characters among letters, digits, [_] and [-]. *)
Theorem extract_video_id_returns_eleven_id_characters (url v : string) :
  extract_video_id url = Some v ->
  String.length v = 11%nat /\
  forallb is_id_char (list_ascii_of_string v) = true /\
  exists pre post, url = (pre ++ v ++ post)%string.
Proof.
  induction url as [|c url IH]; cbn [extract_video_id].
  - destruct (match_video_id EmptyString) eqn:Hm; [|discriminate].
    intros [= <-]. exact (match_video_id_sound _ _ Hm).
  - destruct (match_video_id (String c url)) eqn:Hm.
    + intros [= <-]. exact (match_video_id_sound _ _ Hm).
    + intros H. destruct (IH H) as (Hlen & Hall & pre & post & Hurl).
      split; [exact Hlen|]. split; [exact Hall|].
      exists (String c pre), post.
      change (String c url = String c (pre ++ v ++ post)%string). now rewrite <- Hurl.
Qed.

Lemma extract_video_id_returns_eleven_id_characters_witness :
  extract_video_id "https://www.youtube.com/embed/test_vid_id" = Some "test_vid_id" /\
  String.length "test_vid_id" = 11%nat /\
  forallb is_id_char (list_ascii_of_string "test_vid_id") = true /\
  exists pre post,
    "https://www.youtube.com/embed/test_vid_id" = (pre ++ "test_vid_id" ++ post)%string.
Proof.
  assert (H : extract_video_id "https://www.youtube.com/embed/test_vid_id"
              = Some "test_vid_id") by reflexivity.
  split; [exact H|].
  exact (extract_video_id_returns_eleven_id_characters _ _ H).
Defined.

Lemma match_video_id_none (s : string) :
  match_video_id s = None <->
  id_chars 11 s = None /\
  prefixed_id "embed/" s = None /\
  prefixed_id "watch?v=" s = None /\
  prefixed_id "/" s = None.
Proof.
  unfold match_video_id, or_else.
  destruct (prefixed_id "embed/" s); [split; [discriminate|intros (_ & ? & _); discriminate]|].
  destruct (prefixed_id "watch?v=" s);
    [split; [discriminate|intros (_ & _ & ? & _); discriminate]|].
  destruct (prefixed_id "/" s);
    [split; [discriminate|intros (_ & _ & _ & ?); discriminate]|].
  tauto.
Qed.

(** X12.  [extract_video_id] returns nothing exactly when the URL has no
    eleven characters in a row among letters, digits, [_] and [-]: any
    such run anywhere in the URL, in the host name or the path as well,
    makes it return an id. *)
Theorem extract_video_id_none_iff_no_run (url : string) :
  extract_video_id url = None <->
  forall pre post, url = (pre ++ post)%string -> id_chars 11 post = None.
Proof.
  induction url as [|c url IH]; cbn [extract_video_id].
  - split.
    + intros _ pre post H. destruct pre as [|c' pre].
      * change (EmptyString = post) in H. subst post. reflexivity.
      * change (EmptyString = String c' (pre ++ post)%string) in H. discriminate.
    + intros _. reflexivity.
  - split.
    + destruct (match_video_id (String c url)) eqn:Hm; [discriminate|].
      intros H pre post Hsplit. destruct pre as [|c' pre].
      * change (String c url = post) in Hsplit. subst post.
        apply match_video_id_none in Hm. tauto.
      * change (String c url = String c' (pre ++ post)%string) in Hsplit.
        injection Hsplit as _ Hurl. exact (proj1 IH H pre post Hurl).
    + intros Hnone.
      assert (Hm : match_video_id (String c url) = None).
      { apply match_video_id_none.
        split; [exact (Hnone EmptyString _ eq_refl)|].
        assert (Hp : forall p, prefixed_id p (String c url) = None).
        { intros p. unfold prefixed_id.
          destruct (Py.after_prefix p (String c url)) as [r|] eqn:Hr; [|reflexivity].
          exact (Hnone p r (after_prefix_sound _ _ _ Hr)). }
        auto. }
      rewrite Hm. apply IH. intros pre post Hurl.
      apply (Hnone (String c pre) post).
      change (String c url = String c (pre ++ post)%string). now rewrite Hurl.
Qed.

(** A host name of eleven letters is taken for the id. *)
Example extract_video_id_takes_a_long_host_name :
  extract_video_id "https://googlevideo.com/embed/test_vid_id" = Some "googlevideo".
Proof. reflexivity. Qed.

(** ** Quizzes for all modules *)

Section QuizProperties.

Context (env : Env).

Lemma nonempty_not_empty s : Py.nonempty s = true -> s <> EmptyString.
Proof. destruct s; [discriminate|]. intros _; discriminate. Qed.

Lemma first_quiz_for_app t (l1 l2 : list Quiz) :
  first_quiz_for t (l1 ++ l2)
    = match first_quiz_for t l1 with
      | Some q => Some q
      | None => first_quiz_for t l2
      end.
Proof.
  unfold first_quiz_for. induction l1 as [|x l1 IH]; [reflexivity|].
  cbn [app List.find]. destruct (String.eqb (fst x) t); [reflexivity|exact IH].
Qed.

(** One module with text: one request, one row written. *)
Lemma quiz_one_module difficulty (m : Module_) w :
  has_text m = true ->
  exists questions,
    generate_quiz_questions env (get_module_text m) difficulty 2 w
      = (Ok questions, record_event (quiz_request difficulty m) w).
Proof.
  intros Htext. eexists.
  apply (generate_quiz_questions_run env); [|lia].
  apply nonempty_not_empty. exact Htext.
Qed.

Lemma quiz_each_module_step video_id difficulty acc (m : Module_) rest w q w1 :
  has_text m = true ->
  generate_quiz_questions env (get_module_text m) difficulty 2 w = (Ok q, w1) ->
  quiz_each_module env video_id difficulty acc (m :: rest) w
    = quiz_each_module env video_id difficulty (acc ++ [(title m, q)]) rest
        (set_module_questions
           (<[(video_id, title m) := (difficulty, q)]> (module_questions w1)) w1).
Proof.
  intros Htext Hq. cbn [quiz_each_module]. fold (has_text m). rewrite Htext.
  cbn [negb]. unfold try_except, bind. rewrite Hq. reflexivity.
Qed.

Lemma quiz_each_module_skip video_id difficulty acc (m : Module_) rest w :
  has_text m = false ->
  quiz_each_module env video_id difficulty acc (m :: rest) w
    = quiz_each_module env video_id difficulty acc rest w.
Proof.
  intros Htext. cbn [quiz_each_module]. fold (has_text m). now rewrite Htext.
Qed.

(** The loop of [generate_all_module_quizzes]. *)
Lemma quiz_each_module_run video_id difficulty modules : forall acc w,
  exists added w',
    quiz_each_module env video_id difficulty acc modules w = (Ok (acc ++ added), w') /\
    List.map fst added = List.map title (List.filter has_text modules) /\
    trace w' = trace w ++ List.map (quiz_request difficulty) (List.filter has_text modules) /\
    transcriptions w' = transcriptions w /\
    course_modules w' = course_modules w /\
    (forall v t, v <> video_id ->
       module_questions w' !! (v, t) = module_questions w !! (v, t)) /\
    (forall t,
       module_questions w' !! (video_id, t)
         = match last_quiz_for t added with
           | Some q => Some (difficulty, q)
           | None => module_questions w !! (video_id, t)
           end).
Proof.
  induction modules as [|m rest IH]; intros acc w.
  - exists [], w. cbn [quiz_each_module ret List.filter List.map].
    rewrite !List.app_nil_r. repeat split.
  - cbn [List.filter]. destruct (has_text m) eqn:Htext.
    + destruct (quiz_one_module difficulty m w Htext) as [q Hq].
      rewrite (quiz_each_module_step video_id difficulty acc m rest w q _ Htext Hq).
      match goal with
      | |- context [quiz_each_module env video_id difficulty ?acc' rest ?w1] =>
          destruct (IH acc' w1)
            as (added & w' & Hrun & Htitles & Htrace & Ht & Hc & Hother & Hsame)
      end.
      exists ((title m, q) :: added), w'.
      split; [rewrite Hrun; now rewrite <- List.app_assoc|].
      split; [cbn [List.map fst]; now rewrite Htitles|].
      split.
      { rewrite Htrace. cbn [trace set_module_questions record_event List.map].
        now rewrite <- List.app_assoc. }
      split; [exact Ht|]. split; [exact Hc|].
      split.
      { intros v t Hv. rewrite Hother by exact Hv.
        cbn [module_questions set_module_questions record_event].
        apply lookup_insert_ne. congruence. }
      intros t. rewrite Hsame.
      unfold last_quiz_for. cbn [List.rev]. rewrite first_quiz_for_app.
      destruct (first_quiz_for t (List.rev added)); [reflexivity|].
      cbn [module_questions set_module_questions record_event].
      unfold first_quiz_for. cbn [List.find fst snd].
      destruct (String.eqb (title m) t) eqn:Heq.
      * apply String.eqb_eq in Heq. subst t. cbn [option_map snd].
        apply lookup_insert_eq.
      * apply String.eqb_neq in Heq. cbn [option_map].
        apply lookup_insert_ne. congruence.
    + rewrite (quiz_each_module_skip video_id difficulty acc m rest w Htext).
      destruct (IH acc w)
        as (added & w' & Hrun & Htitles & Htrace & Ht & Hc & Hother & Hsame).
      exists added, w'. auto 10.
Qed.

End QuizProperties.

Section QuizEntryProperties.

Context (env : Env).

Lemma generate_all_module_quizzes_run video_id difficulty m ms w :
  course_modules w !! video_id = Some (m :: ms) ->
  exists quizzes w',
    generate_all_module_quizzes env video_id difficulty w = (Ok quizzes, w') /\
    List.map fst quizzes = List.map title (List.filter has_text (m :: ms)) /\
    trace w' = trace w
               ++ List.map (quiz_request difficulty) (List.filter has_text (m :: ms)) /\
    transcriptions w' = transcriptions w /\
    course_modules w' = course_modules w /\
    (forall v t, v <> video_id ->
       module_questions w' !! (v, t) = module_questions w !! (v, t)) /\
    (forall t,
       module_questions w' !! (video_id, t)
         = match last_quiz_for t quizzes with
           | Some q => Some (difficulty, q)
           | None => module_questions w !! (video_id, t)
           end).
Proof.
  intros Hmodules.
  destruct (quiz_each_module_run env video_id difficulty (m :: ms) [] w)
    as (added & w' & Hrun & Hrest).
  exists added, w'. split; [|exact Hrest].
  unfold generate_all_module_quizzes, get_cached_modules, bind, get_world, ret.
  rewrite Hmodules. exact Hrun.
Qed.

Lemma generate_all_module_quizzes_without_modules video_id difficulty w :
  course_modules w !! video_id = None \/ course_modules w !! video_id = Some [] ->
  generate_all_module_quizzes env video_id difficulty w
    = (Raise (ValueError "No modules found in cache"), w).
Proof.
  unfold generate_all_module_quizzes, get_cached_modules, bind, get_world, ret, raise.
  intros [H|H]; rewrite H; reflexivity.
Qed.

(** X13.  [generate_all_module_quizzes] raises exactly when the module
    cache holds nothing for the video or holds the empty list, and returns
    a list of quizzes exactly when a non-empty list is cached.  When it
    raises, nothing has been requested or written; and when the table of
    the module cache holds any row, so that the table exists, the
    exception is the [ValueError] of line 328. *)
Theorem generate_all_module_quizzes_raises_iff_no_modules
    (video_id difficulty : string) (w : World) :
  ((exists e w', generate_all_module_quizzes env video_id difficulty w = (Raise e, w'))
   <-> (course_modules w !! video_id = None \/ course_modules w !! video_id = Some [])) /\
  ((exists quizzes w',
      generate_all_module_quizzes env video_id difficulty w = (Ok quizzes, w'))
   <-> (exists m ms, course_modules w !! video_id = Some (m :: ms))) /\
  (forall e w',
     generate_all_module_quizzes env video_id difficulty w = (Raise e, w') ->
     w' = w /\
     (course_modules_has_rows w -> e = ValueError "No modules found in cache")).
Proof.
  pose proof (generate_all_module_quizzes_without_modules video_id difficulty w) as Hraise.
  destruct (course_modules w !! video_id) as [[|m ms]|] eqn:Hmodules.
  - rewrite (Hraise (or_intror eq_refl)).
    split; [split; eauto|].
    split; [split; [intros (? & ? & [=]) | intros (? & ? & [=])]|].
    intros e w' [= <- <-]. auto.
  - destruct (generate_all_module_quizzes_run video_id difficulty m ms w Hmodules)
      as (quizzes & w'' & Hok & _).
    rewrite Hok.
    split; [split; [intros (? & ? & [=]) | intros [[=]|[=]]]|].
    split; [split; eauto|].
    intros e w' [=].
  - rewrite (Hraise (or_introl eq_refl)).
    split; [split; eauto|].
    split; [split; [intros (? & ? & [=]) | intros (? & ? & [=])]|].
    intros e w' [= <- <-]. auto.
Qed.

(** X14.  With a non-empty module list cached, [generate_all_module_quizzes]
    returns one quiz for each module whose text is not empty, in the order
    of the modules and under the title of the module; it makes exactly one
    quiz request for each of them, with the text of the module, the
    difficulty given and two questions asked for, and no other external
    call; modules without text are passed over. *)
Theorem one_quiz_per_module_with_text
    (video_id difficulty : string) (m : Module_) (ms : list Module_) (w : World) :
  course_modules w !! video_id = Some (m :: ms) ->
  exists quizzes w',
    generate_all_module_quizzes env video_id difficulty w = (Ok quizzes, w') /\
    List.map fst quizzes
      = List.map title
          (List.filter (fun m => Py.nonempty (get_module_text m)) (m :: ms)) /\
    trace w' = trace w ++
      List.map (fun m => LlmCall QUIZ_MODEL (QuizPrompt (get_module_text m) difficulty 2))
        (List.filter (fun m => Py.nonempty (get_module_text m)) (m :: ms)).
Proof.
  intros Hmodules.
  destruct (generate_all_module_quizzes_run video_id difficulty m ms w Hmodules)
    as (quizzes & w' & Hrun & Htitles & Htrace & _).
  exists quizzes, w'. auto.
Qed.

(** X15.  After [generate_all_module_quizzes] the quiz cache holds, for
    each title among the quizzes returned, the questions of the last quiz
    returned under that title, stored with the difficulty given; rows of
    other titles and of other videos, the module cache and the transcript
    cache are as before.  When two modules share a title, the row holds
    the quiz of the later one. *)
Theorem quiz_cache_after_generation
    (video_id difficulty : string) (m : Module_) (ms : list Module_) (w : World) :
  course_modules w !! video_id = Some (m :: ms) ->
  exists quizzes w',
    generate_all_module_quizzes env video_id difficulty w = (Ok quizzes, w') /\
    (forall t,
       module_questions w' !! (video_id, t)
         = match option_map snd
                   (List.find (fun quiz => String.eqb (fst quiz) t) (List.rev quizzes)) with
           | Some q => Some (difficulty, q)
           | None => module_questions w !! (video_id, t)
           end) /\
    (forall v t, v <> video_id ->
       module_questions w' !! (v, t) = module_questions w !! (v, t)) /\
    course_modules w' = course_modules w /\
    transcriptions w' = transcriptions w.
Proof.
  intros Hmodules.
  destruct (generate_all_module_quizzes_run video_id difficulty m ms w Hmodules)
    as (quizzes & w' & Hrun & _ & _ & Ht & Hc & Hother & Hsame).
  exists quizzes, w'. auto.
Qed.

End QuizEntryProperties.

Section GetQuizProperties.

Context (env : Env).

Lemma first_quiz_for_none t (l : list Quiz) :
  first_quiz_for t l = None <-> ~ List.In t (List.map fst l).
Proof.
  unfold first_quiz_for. induction l as [|x l IH]; [cbn; tauto|].
  cbn [List.find List.map List.In].
  destruct (String.eqb (fst x) t) eqn:Heq.
  - apply String.eqb_eq in Heq. cbn. split; [discriminate|tauto].
  - apply String.eqb_neq in Heq. rewrite IH. tauto.
Qed.





(** What the read of line 296 yields that sends [get_quiz] on to
    generation. *)
Lemma get_quiz_after_miss video_id module_title difficulty w :
  (module_questions w !! (video_id, module_title) = None \/
   exists stored questions,
     module_questions w !! (video_id, module_title) = Some (stored, questions) /\
     truthy questions = false) ->
  get_quiz env video_id module_title difficulty w
    = regenerate env video_id module_title difficulty w.
Proof.
  unfold get_quiz, regenerate, get_cached_quiz, bind, get_world, ret. cbn [fst snd].
  intros [H | (stored & questions & H & Hfalse)]; rewrite H; cbn [option_map snd];
    [reflexivity | now rewrite Hfalse].
Qed.

(** X16.  On a cache miss with a non-empty module list cached, [get_quiz]
    does not raise, and its answer is absent exactly when no module with
    text has the title asked for: a title has to match a module title
    character for character. *)
Theorem get_quiz_is_absent_iff_no_module_has_the_title
    (video_id module_title difficulty : string)
    (m : Module_) (ms : list Module_) (w : World) :
  course_modules w !! video_id = Some (m :: ms) ->
  (module_questions w !! (video_id, module_title) = None \/
   exists stored questions,
     module_questions w !! (video_id, module_title) = Some (stored, questions) /\
     truthy questions = false) ->
  exists answer w',
    get_quiz env video_id module_title difficulty w = (Ok answer, w') /\
    (answer = None <->
     ~ List.In module_title
         (List.map title
            (List.filter (fun m => Py.nonempty (get_module_text m)) (m :: ms)))).
Proof.
  intros Hmodules Hmiss.
  rewrite (get_quiz_after_miss video_id module_title difficulty w Hmiss).
  destruct (generate_all_module_quizzes_run env video_id difficulty m ms w Hmodules)
    as (quizzes & w' & Hrun & Htitles & _).
  exists (first_quiz_for module_title quizzes), w'.
  split.
  - unfold regenerate, bind. rewrite Hrun. reflexivity.
  - rewrite first_quiz_for_none, Htitles. reflexivity.
Qed.


End GetQuizProperties.

Lemma studio_world_modules :
  course_modules studio_world !! "test_vid_id" = Some [studio_module].
Proof. vm_compute. reflexivity. Qed.

Lemma generate_all_module_quizzes_raises_iff_no_modules_witness :
  (course_modules world_with_empty_lists !! "test_vid_id" = None \/
   course_modules world_with_empty_lists !! "test_vid_id" = Some []) /\
  course_modules_has_rows world_with_empty_lists /\
  exists e w',
    generate_all_module_quizzes offline "test_vid_id" "medium" world_with_empty_lists
      = (Raise e, w') /\
    w' = world_with_empty_lists /\
    e = ValueError "No modules found in cache".
Proof.
  assert (H : course_modules world_with_empty_lists !! "test_vid_id" = None \/
              course_modules world_with_empty_lists !! "test_vid_id" = Some [])
    by (right; reflexivity).
  assert (Hrows : course_modules_has_rows world_with_empty_lists)
    by (left; exists "test_vid_id", []; reflexivity).
  split; [exact H|]. split; [exact Hrows|].
  destruct (generate_all_module_quizzes_raises_iff_no_modules offline
              "test_vid_id" "medium" world_with_empty_lists)
    as (Hiff & _ & Hexn).
  destruct (proj2 Hiff H) as (e & w' & Hrun).
  destruct (Hexn e w' Hrun) as [Hw He].
  exists e, w'. split; [exact Hrun|]. split; [exact Hw | exact (He Hrows)].
Defined.

Lemma one_quiz_per_module_with_text_witness :
  course_modules studio_world !! "test_vid_id" = Some [studio_module] /\
  exists quizzes w',
    generate_all_module_quizzes studio "test_vid_id" "easy" studio_world
      = (Ok quizzes, w') /\
    List.map fst quizzes
      = List.map title
          (List.filter (fun m => Py.nonempty (get_module_text m)) [studio_module]) /\
    trace w' = trace studio_world ++
      List.map (fun m => LlmCall QUIZ_MODEL (QuizPrompt (get_module_text m) "easy" 2))
        (List.filter (fun m => Py.nonempty (get_module_text m)) [studio_module]).
Proof.
  assert (H : course_modules studio_world !! "test_vid_id" = Some [studio_module])
    by (vm_compute; reflexivity).
  split; [exact H|].
  exact (one_quiz_per_module_with_text studio "test_vid_id" "easy"
           studio_module [] studio_world H).
Defined.

Lemma quiz_cache_after_generation_witness :
  course_modules studio_world !! "test_vid_id" = Some [studio_module] /\
  exists quizzes w',
    generate_all_module_quizzes studio "test_vid_id" "easy" studio_world
      = (Ok quizzes, w') /\
    (forall t,
       module_questions w' !! ("test_vid_id", t)
         = match option_map snd
                   (List.find (fun quiz => String.eqb (fst quiz) t) (List.rev quizzes)) with
           | Some q => Some ("easy", q)
           | None => module_questions studio_world !! ("test_vid_id", t)
           end) /\
    course_modules w' = course_modules studio_world.
Proof.
  assert (H : course_modules studio_world !! "test_vid_id" = Some [studio_module])
    by (vm_compute; reflexivity).
  split; [exact H|].
  destruct (quiz_cache_after_generation studio "test_vid_id" "easy"
              studio_module [] studio_world H)
    as (quizzes & w' & Hrun & Hrows & _ & Hc & _).
  exists quizzes, w'. auto.
Defined.

Lemma get_quiz_is_absent_iff_no_module_has_the_title_witness :
  course_modules studio_world !! "test_vid_id" = Some [studio_module] /\
  (module_questions studio_world !! ("test_vid_id", "Another title") = None \/
   exists stored questions,
     module_questions studio_world !! ("test_vid_id", "Another title")
       = Some (stored, questions) /\
     truthy questions = false) /\
  exists answer w',
    get_quiz studio "test_vid_id" "Another title" "easy" studio_world = (Ok answer, w') /\
    (answer = None <->
     ~ List.In "Another title"
         (List.map title
            (List.filter (fun m => Py.nonempty (get_module_text m)) [studio_module]))).
Proof.
  assert (H : course_modules studio_world !! "test_vid_id" = Some [studio_module])
    by (vm_compute; reflexivity).
  assert (Hmiss :
    module_questions studio_world !! ("test_vid_id", "Another title") = None \/
    exists stored questions,
      module_questions studio_world !! ("test_vid_id", "Another title")
        = Some (stored, questions) /\
      truthy questions = false) by (left; vm_compute; reflexivity).
  split; [exact H|]. split; [exact Hmiss|].
  exact (get_quiz_is_absent_iff_no_module_has_the_title studio
           "test_vid_id" "Another title" "easy" studio_module [] studio_world H Hmiss).
Defined.


(** ** The two routes *)

Section RouteProperties.

Context (env : Env).

(** X18.  When yt-dlp raises, or the transcript is not cached and the
    download or the transcription raises, the modules route answers 500
    with the [TypeError] raised by subscripting [None], and the three
    tables are as before.  This holds whatever the module cache holds:
    the modules of a video are not served while its transcript cannot be
    obtained. *)
Theorem modules_route_fails_when_the_provider_fails (video_id : string) (w : World) :
  let url := ("https://www.youtube.com/watch?v=" ++ video_id)%string in
  video_id <> EmptyString ->
  (ytdl_extract_info env (List.length (trace w)) url = None \/
   (exists info,
      ytdl_extract_info env (List.length (trace w)) url = Some info /\
      transcriptions w !! yt_id info = None /\
      whisper_transcribe env (S (List.length (trace w))) url = None)) ->
  exists w',
    modules env video_id w = (Http500 TypeError, w') /\
    same_tables w w'.
Proof.
  intros url Hid Hfail.
  unfold modules. rewrite (nonempty_true _ Hid). cbn [negb].
  unfold respond, bind. fold url.
  rewrite transcribe_youtube_video_run. cbv zeta.
  destruct Hfail as [Hytdl | (info & Hytdl & Hmiss & Hwhisper)]; rewrite Hytdl.
  - eexists. split; [reflexivity|]. apply same_tables_record.
  - rewrite Hmiss. cbn [trace record_event].
    rewrite List.length_app, Nat.add_1_r, Hwhisper.
    eexists. split; [reflexivity|]. repeat split.
Qed.

(** X19.  The quiz route answers 400 and does nothing when the video id
    or the module title is missing.  With both given, no usable quiz
    cached for them and no non-empty module list cached for the video, it
    answers 500, whatever the difficulty and whether it is given or not,
    and again nothing is requested or written; when the table of the
    module cache holds any row, so that the table exists, the error
    reported is the [ValueError] of [generate_all_module_quizzes]. *)
Theorem generate_quiz_route_errors
    (video_id module_title : string) (difficulty : option string) (w : World) :
  (video_id = EmptyString \/ module_title = EmptyString ->
   generate_quiz env video_id module_title difficulty w
     = (Http400 "Both video_id and module_title are required", w)) /\
  (video_id <> EmptyString -> module_title <> EmptyString ->
   (module_questions w !! (video_id, module_title) = None \/
    exists stored questions,
      module_questions w !! (video_id, module_title) = Some (stored, questions) /\
      truthy questions = false) ->
   (course_modules w !! video_id = None \/ course_modules w !! video_id = Some []) ->
   exists e,
     generate_quiz env video_id module_title difficulty w = (Http500 e, w) /\
     (course_modules_has_rows w -> e = ValueError "No modules found in cache")).
Proof.
  split.
  - intros [-> | ->]; unfold generate_quiz; cbn [Py.nonempty negb orb];
      [reflexivity | now rewrite orb_true_r].
  - intros Hid Htitle Hquiz Hmodules. unfold generate_quiz.
    rewrite (nonempty_true _ Hid), (nonempty_true _ Htitle). cbn [negb orb].
    unfold respond. rewrite (get_quiz_after_miss env _ _ _ _ Hquiz).
    unfold regenerate, generate_all_module_quizzes, get_cached_modules,
      bind, get_world, ret, raise.
    exists (ValueError "No modules found in cache").
    split; [|reflexivity].
    destruct Hmodules as [H|H]; rewrite H; reflexivity.
Qed.

End RouteProperties.

Lemma modules_route_fails_when_the_provider_fails_witness :
  "test_vid_id" <> EmptyString /\
  (ytdl_extract_info offline (List.length (trace studio_world)) studio_url = None \/
   (exists info,
      ytdl_extract_info offline (List.length (trace studio_world)) studio_url = Some info /\
      transcriptions studio_world !! yt_id info = None /\
      whisper_transcribe offline (S (List.length (trace studio_world))) studio_url = None)) /\
  course_modules studio_world !! "test_vid_id" = Some [studio_module] /\
  exists w',
    modules offline "test_vid_id" studio_world = (Http500 TypeError, w') /\
    same_tables studio_world w'.
Proof.
  assert (Hid : "test_vid_id" <> EmptyString) by discriminate.
  assert (Hfail :
    ytdl_extract_info offline (List.length (trace studio_world)) studio_url = None \/
    (exists info,
       ytdl_extract_info offline (List.length (trace studio_world)) studio_url = Some info /\
       transcriptions studio_world !! yt_id info = None /\
       whisper_transcribe offline (S (List.length (trace studio_world))) studio_url = None))
    by (left; reflexivity).
  split; [exact Hid|]. split; [exact Hfail|]. split; [exact studio_world_modules|].
  exact (modules_route_fails_when_the_provider_fails offline "test_vid_id"
           studio_world Hid Hfail).
Defined.

Lemma generate_quiz_route_errors_witness :
  (EmptyString = EmptyString \/ "Intro" = EmptyString) /\
  generate_quiz offline EmptyString "Intro" None empty_world
    = (Http400 "Both video_id and module_title are required", empty_world) /\
  "test_vid_id" <> EmptyString /\ "Intro" <> EmptyString /\
  (module_questions world_with_empty_lists !! ("test_vid_id", "Intro") = None \/
   exists stored questions,
     module_questions world_with_empty_lists !! ("test_vid_id", "Intro")
       = Some (stored, questions) /\
     truthy questions = false) /\
  (course_modules world_with_empty_lists !! "test_vid_id" = None \/
   course_modules world_with_empty_lists !! "test_vid_id" = Some []) /\
  course_modules_has_rows world_with_empty_lists /\
  exists e,
    generate_quiz offline "test_vid_id" "Intro" None world_with_empty_lists
      = (Http500 e, world_with_empty_lists) /\
    e = ValueError "No modules found in cache".
Proof.
  assert (Hmissing : EmptyString = EmptyString \/ "Intro" = EmptyString)
    by (left; reflexivity).
  assert (Hid : "test_vid_id" <> EmptyString) by discriminate.
  assert (Htitle : "Intro" <> EmptyString) by discriminate.
  assert (Hquiz :
    module_questions world_with_empty_lists !! ("test_vid_id", "Intro") = None \/
    exists stored questions,
      module_questions world_with_empty_lists !! ("test_vid_id", "Intro")
        = Some (stored, questions) /\
      truthy questions = false).
  { right. exists "medium", (JArr []). split; reflexivity. }
  assert (Hmodules :
    course_modules world_with_empty_lists !! "test_vid_id" = None \/
    course_modules world_with_empty_lists !! "test_vid_id" = Some [])
    by (right; reflexivity).
  split; [exact Hmissing|].
  split; [exact (proj1 (generate_quiz_route_errors offline EmptyString "Intro" None
                          empty_world) Hmissing)|].
  split; [exact Hid|]. split; [exact Htitle|]. split; [exact Hquiz|].
  assert (Hrows : course_modules_has_rows world_with_empty_lists)
    by (left; exists "test_vid_id", []; reflexivity).
  split; [exact Hmodules|]. split; [exact Hrows|].
  destruct (proj2 (generate_quiz_route_errors offline "test_vid_id" "Intro" None
                     world_with_empty_lists) Hid Htitle Hquiz Hmodules)
    as (e & Hrun & He).
  exists e. split; [exact Hrun | exact (He Hrows)].
Defined.

(** ** Stripping *)

Lemma drop_while_head (p : ascii -> bool) (l : list ascii) c rest :
  Py.drop_while p l = c :: rest -> p c = false.
Proof.
  induction l as [|x l IH]; [discriminate|].
  cbn [Py.drop_while]. destruct (p x) eqn:Hx; [exact IH|].
  intros [= <- _]. exact Hx.
Qed.

Lemma drop_while_split (p : ascii -> bool) (l : list ascii) :
  exists dropped, l = dropped ++ Py.drop_while p l /\ forallb p dropped = true.
Proof.
  induction l as [|x l (d & Hd & Hall)]; [exists []; auto|].
  cbn [Py.drop_while]. destruct (p x) eqn:Hx.
  - exists (x :: d). cbn [app forallb]. rewrite Hx, Hall. split; [congruence|reflexivity].
  - exists []. auto.
Qed.

Lemma drop_while_nil (p : ascii -> bool) (l : list ascii) :
  Py.drop_while p l = [] <-> forallb p l = true.
Proof.
  induction l as [|x l IH]; [cbn; tauto|].
  cbn [Py.drop_while forallb]. destruct (p x); [exact IH|].
  cbn. split; discriminate.
Qed.

Lemma forallb_rev (p : ascii -> bool) (l : list ascii) :
  forallb p (List.rev l) = forallb p l.
Proof.
  induction l as [|x l IH]; [reflexivity|].
  cbn [List.rev forallb]. rewrite List.forallb_app, IH. cbn [forallb].
  rewrite andb_true_r. apply andb_comm.
Qed.

Lemma chars_rstrip_by (p : ascii -> bool) (s : string) :
  chars (Py.rstrip_by p s) = List.rev (Py.drop_while p (List.rev (chars s))).
Proof. unfold chars, Py.rstrip_by. apply list_ascii_of_string_of_list_ascii. Qed.

Lemma chars_lstrip_by (p : ascii -> bool) (s : string) :
  chars (Py.lstrip_by p s) = Py.drop_while p (chars s).
Proof. unfold chars, Py.lstrip_by. apply list_ascii_of_string_of_list_ascii. Qed.

(** What [rstrip] leaves does not end with a character it strips. *)
Lemma rstrip_by_last (p : ascii -> bool) (s : string) c :
  last_char (Py.rstrip_by p s) = Some c -> p c = false.
Proof.
  unfold last_char. rewrite chars_rstrip_by, List.rev_involutive.
  destruct (Py.drop_while p (List.rev (chars s))) as [|x rest] eqn:Hd; [discriminate|].
  intros [= <-]. exact (drop_while_head p _ _ _ Hd).
Qed.

(** What [rstrip] leaves starts as the string did. *)
Lemma rstrip_by_first (p : ascii -> bool) (s : string) c :
  first_char (Py.rstrip_by p s) = Some c -> first_char s = Some c.
Proof.
  unfold first_char. rewrite chars_rstrip_by.
  destruct (drop_while_split p (List.rev (chars s))) as (d & Hsplit & _).
  apply (f_equal (@List.rev ascii)) in Hsplit.
  rewrite List.rev_involutive, List.rev_app_distr in Hsplit.
  intros H.
  destruct (List.rev (Py.drop_while p (List.rev (chars s)))) as [|x b] eqn:Hb;
    [discriminate|].
  injection H as ->. now rewrite Hsplit.
Qed.

Lemma strip_ends (s : string) c :
  first_char (Py.strip s) = Some c \/ last_char (Py.strip s) = Some c ->
  Py.isspace c = false.
Proof.
  unfold Py.strip. intros [H|H].
  - apply rstrip_by_first in H. unfold first_char in H. rewrite chars_lstrip_by in H.
    destruct (Py.drop_while Py.isspace (chars s)) as [|x rest] eqn:Hd; [discriminate|].
    injection H as <-. exact (drop_while_head _ _ _ _ Hd).
  - exact (rstrip_by_last _ _ _ H).
Qed.

Lemma chars_nil (s : string) : chars s = [] <-> s = EmptyString.
Proof.
  destruct s; unfold chars; cbn [list_ascii_of_string]; split; intros H;
    solve [reflexivity | discriminate H].
Qed.

Lemma strip_empty_iff (s : string) :
  Py.strip s = EmptyString <-> forallb Py.isspace (chars s) = true.
Proof.
  rewrite <- chars_nil. unfold Py.strip.
  rewrite chars_rstrip_by, chars_lstrip_by.
  destruct (drop_while_split Py.isspace (chars s)) as (d & Hsplit & Hd).
  set (a := Py.drop_while Py.isspace (chars s)) in *.
  rewrite Hsplit, List.forallb_app, Hd. cbn [andb].
  rewrite <- (forallb_rev _ a), <- drop_while_nil.
  split; intros H.
  - apply (f_equal (@List.rev ascii)) in H. now rewrite List.rev_involutive in H.
  - now rewrite H.
Qed.

(** X20.  The text of a module neither starts nor ends with whitespace,
    and it is empty exactly when the title and the segment texts, joined
    by single spaces, hold nothing but whitespace: these are the modules
    for which no quiz is generated. *)
Theorem get_module_text_is_stripped (m : Module_) :
  (forall c, first_char (get_module_text m) = Some c -> Py.isspace c = false) /\
  (forall c, last_char (get_module_text m) = Some c -> Py.isspace c = false) /\
  (get_module_text m = EmptyString
   <-> forallb Py.isspace (chars (raw_module_text m)) = true).
Proof.
  unfold get_module_text. fold (raw_module_text m).
  split; [intros c H; apply (strip_ends (raw_module_text m)); auto|].
  split; [intros c H; apply (strip_ends (raw_module_text m)); auto|].
  apply strip_empty_iff.
Qed.

Lemma get_module_text_is_stripped_witness :
  first_char (get_module_text studio_module) = Some "T"%char /\
  last_char (get_module_text studio_module) = Some "."%char /\
  Py.isspace "T"%char = false /\ Py.isspace "."%char = false.
Proof.
  assert (Hfirst : first_char (get_module_text studio_module) = Some "T"%char)
    by reflexivity.
  assert (Hlast : last_char (get_module_text studio_module) = Some "."%char)
    by reflexivity.
  split; [exact Hfirst|]. split; [exact Hlast|].
  destruct (get_module_text_is_stripped studio_module) as (Hf & Hl & _).
  split; [exact (Hf _ Hfirst) | exact (Hl _ Hlast)].
Defined.

(** ** Generated titles and parsed quizzes *)

Section GenerationProperties.

Context (env : Env).

(** X21.  When the title request is answered with a content that is not
    blank, and whose characters are among the first 256 code points
    without the three whose title case lies beyond them (181, 223 and
    255), the title is that content stripped, put in title case and freed
    of trailing [.], [!] and [?]; it does not end with one of these three
    characters, and there is no fallback, even when nothing is left of the
    content. *)
Theorem generated_title_is_normalised
    (content : list Segment) (w : World) (body : string) :
  chat_completion env (List.length (trace w)) TITLE_MODEL
    (TitlePrompt (full_text_of content)) = ApiResponse (Some body) ->
  Py.strip body <> EmptyString ->
  forallb Py.title_case_in_range (chars body) = true ->
  exists t,
    generate_module_title env content w
      = (Ok t, record_event (LlmCall TITLE_MODEL (TitlePrompt (full_text_of content))) w) /\
    t = Py.rstrip_chars ["."; "!"; "?"]%char (Py.title (Py.strip body)) /\
    (forall c, last_char t = Some c ->
               c <> "."%char /\ c <> "!"%char /\ c <> "?"%char).
Proof.
  intros Hreply Hbody _. eexists. split; [|split; [reflexivity|]].
  - unfold generate_module_title, try_except, bind.
    rewrite generate_title_run, Hreply. cbn [ret].
    now rewrite (nonempty_true _ Hbody).
  - intros c Hc. unfold Py.rstrip_chars in Hc.
    apply rstrip_by_last in Hc. cbn [existsb] in Hc.
    repeat split; intros ->; discriminate Hc.
Qed.

(** X22.  When the completion holds a fenced block that parses to a
    value with a length, [generate_quiz_questions] returns that value as
    it is, after the one request it makes: the questions are not
    inspected and their number is not compared with the number asked
    for. *)
Theorem generate_quiz_questions_returns_the_block
    (text difficulty : string) (n : Z) (w : World)
    (completion block : string) (parsed : json) :
  text <> EmptyString ->
  (1 <= n)%Z ->
  chat_completion env (List.length (trace w)) QUIZ_MODEL (QuizPrompt text difficulty n)
    = ApiResponse (Some completion) ->
  search_json_block completion = Some block ->
  json_loads env block = Some parsed ->
  has_len parsed = true ->
  generate_quiz_questions env text difficulty n w
    = (Ok parsed, record_event (LlmCall QUIZ_MODEL (QuizPrompt text difficulty n)) w).
Proof.
  intros Htext Hn Hreply Hblock Hparsed Hlen.
  rewrite (generate_quiz_questions_run env _ _ _ _ Htext Hn).
  now rewrite Hreply, Hblock, Hparsed, Hlen.
Qed.

End GenerationProperties.

Lemma generated_title_is_normalised_witness :
  chat_completion (answering " intro to python! ") (List.length (trace empty_world))
    TITLE_MODEL (TitlePrompt (full_text_of short_transcript))
    = ApiResponse (Some " intro to python! ") /\
  Py.strip " intro to python! " <> EmptyString /\
  forallb Py.title_case_in_range (chars " intro to python! ") = true /\
  exists t,
    generate_module_title (answering " intro to python! ") short_transcript empty_world
      = (Ok t, record_event
                 (LlmCall TITLE_MODEL (TitlePrompt (full_text_of short_transcript)))
                 empty_world) /\
    t = "Intro To Python".
Proof.
  assert (Hbody : Py.strip " intro to python! " <> EmptyString)
    by (vm_compute; discriminate).
  assert (Hrange : forallb Py.title_case_in_range (chars " intro to python! ") = true)
    by reflexivity.
  split; [reflexivity|]. split; [exact Hbody|]. split; [exact Hrange|].
  destruct (generated_title_is_normalised (answering " intro to python! ")
              short_transcript empty_world " intro to python! " eq_refl Hbody Hrange)
    as (t & Hrun & Ht & _).
  exists t. split; [exact Hrun|]. rewrite Ht. vm_compute. reflexivity.
Defined.

(** A reply of punctuation alone gives the empty title. *)
Example punctuation_gives_an_empty_title :
  fst (generate_module_title (answering "?!") short_transcript empty_world)
  = Ok EmptyString.
Proof. vm_compute. reflexivity. Qed.

Lemma generate_quiz_questions_returns_the_block_witness :
  "Test text" <> EmptyString /\
  (1 <= 2)%Z /\
  chat_completion studio (List.length (trace empty_world)) QUIZ_MODEL
    (QuizPrompt "Test text" "easy" 2)
    = ApiResponse (Some ("```json" ++ LF ++ word_list "easy" ++ LF ++ "```")%string) /\
  search_json_block ("```json" ++ LF ++ word_list "easy" ++ LF ++ "```")
    = Some (word_list "easy") /\
  json_loads studio (word_list "easy") = Some (JArr [JStr "easy"]) /\
  has_len (JArr [JStr "easy"]) = true /\
  generate_quiz_questions studio "Test text" "easy" 2 empty_world
    = (Ok (JArr [JStr "easy"]),
       record_event (LlmCall QUIZ_MODEL (QuizPrompt "Test text" "easy" 2)) empty_world).
Proof.
  assert (Htext : "Test text" <> EmptyString) by discriminate.
  assert (Hn : (1 <= 2)%Z) by lia.
  assert (Hblock : search_json_block ("```json" ++ LF ++ word_list "easy" ++ LF ++ "```")
                   = Some (word_list "easy")) by (vm_compute; reflexivity).
  split; [exact Htext|]. split; [exact Hn|]. split; [reflexivity|].
  split; [exact Hblock|]. split; [reflexivity|]. split; [reflexivity|].
  exact (generate_quiz_questions_returns_the_block studio "Test text" "easy" 2
           empty_world _ (word_list "easy") (JArr [JStr "easy"])
           Htext Hn eq_refl Hblock eq_refl eq_refl).
Defined.

(** ** The fenced block *)

Lemma partition_unfold (pat s : string) :
  Py.partition pat s =
    match Py.after_prefix pat s with
    | Some rest => Some (EmptyString, rest)
    | None =>
        match s with
        | EmptyString => None
        | String c s' =>
            match Py.partition pat s' with
            | Some (before, rest) => Some (String c before, rest)
            | None => None
            end
        end
    end.
Proof. destruct s; reflexivity. Qed.

Lemma partition_sound (pat : string) : forall s before rest,
  Py.partition pat s = Some (before, rest) -> s = (before ++ pat ++ rest)%string.
Proof.
  induction s as [|c s IH]; intros before rest; rewrite partition_unfold.
  - destruct (Py.after_prefix pat EmptyString) as [r|] eqn:Hr; [|discriminate].
    intros [= <- <-]. exact (after_prefix_sound _ _ _ Hr).
  - destruct (Py.after_prefix pat (String c s)) as [r|] eqn:Hr.
    + intros [= <- <-]. exact (after_prefix_sound _ _ _ Hr).
    + destruct (Py.partition pat s) as [[b a]|]; [|discriminate].
      intros [= <- <-].
      change (String c s = String c (b ++ pat ++ a)%string).
      now rewrite (IH b a eq_refl).
Qed.

(** The occurrence found is the leftmost. *)
Lemma partition_complete (pat : string) : forall before s rest,
  s = (before ++ pat ++ rest)%string ->
  exists before0 rest0,
    Py.partition pat s = Some (before0, rest0) /\
    (String.length before0 <= String.length before)%nat.
Proof.
  induction before as [|c before IH]; intros s rest Hs; rewrite partition_unfold.
  - change (s = (pat ++ rest)%string) in Hs. subst s.
    rewrite after_prefix_app. eauto.
  - change (s = String c (before ++ pat ++ rest)%string) in Hs. subst s.
    destruct (Py.after_prefix pat _) as [r|]; [exists EmptyString, r; cbn; split; [reflexivity|lia]|].
    destruct (IH _ rest eq_refl) as (b0 & r0 & Hp & Hlen).
    rewrite Hp. exists (String c b0), r0. cbn. split; [reflexivity|lia].
Qed.

Lemma length_append (a b : string) :
  String.length (a ++ b) = (String.length a + String.length b)%nat.
Proof.
  induction a as [|c a IH]; [reflexivity|].
  change (S (String.length (a ++ b)) = S (String.length a + String.length b)).
  now rewrite IH.
Qed.

(** Of two ways to cut a string, the later cut leaves a suffix of what
    the earlier cut leaves. *)
Lemma later_cut_leaves_a_suffix : forall p1 p2 s1 s2 : string,
  (p1 ++ s1 = p2 ++ s2)%string ->
  (String.length p1 <= String.length p2)%nat ->
  exists x, s1 = (x ++ s2)%string.
Proof.
  induction p1 as [|c p1 IH]; intros p2 s1 s2 Heq Hlen.
  - exists p2. exact Heq.
  - destruct p2 as [|c' p2]; [cbn in Hlen; lia|].
    change (String c (p1 ++ s1)%string = String c' (p2 ++ s2)%string) in Heq.
    injection Heq as _ Heq. apply (IH p2 s1 s2 Heq). cbn in Hlen. lia.
Qed.

Lemma search_json_block_cut (completion block : string) :
  search_json_block completion = Some block ->
  exists pre post,
    completion = (pre ++ ("```json" ++ LF) ++ block ++ (LF ++ "```") ++ post)%string.
Proof.
  unfold search_json_block.
  destruct (Py.partition ("```json" ++ LF) completion) as [[pre rest]|] eqn:Hopen;
    [|discriminate].
  destruct (Py.partition (LF ++ "```") rest) as [[b post]|] eqn:Hclose; [|discriminate].
  intros [= <-]. exists pre, post.
  now rewrite (partition_sound _ _ _ _ Hopen), (partition_sound _ _ _ _ Hclose).
Qed.

(** X23.  When [search_json_block] returns a block, the completion is
    some text, the opening fence [```json] and a line feed, the block, a
    line feed and the closing fence, and some text; the opening fence is
    the first in the completion and the closing fence the first after it,
    so the block is the shortest there is. *)
Theorem search_json_block_returns_the_first_block (completion block : string) :
  search_json_block completion = Some block ->
  exists pre post,
    completion = (pre ++ ("```json" ++ LF) ++ block ++ (LF ++ "```") ++ post)%string /\
    (forall pre' rest',
       completion = (pre' ++ ("```json" ++ LF) ++ rest')%string ->
       (String.length pre <= String.length pre')%nat) /\
    (forall block' post',
       (block ++ (LF ++ "```") ++ post = block' ++ (LF ++ "```") ++ post')%string ->
       (String.length block <= String.length block')%nat).
Proof.
  unfold search_json_block.
  destruct (Py.partition ("```json" ++ LF) completion) as [[pre rest]|] eqn:Hopen;
    [|discriminate].
  destruct (Py.partition (LF ++ "```") rest) as [[b post]|] eqn:Hclose; [|discriminate].
  intros [= <-]. exists pre, post.
  pose proof (partition_sound _ _ _ _ Hopen) as Hc.
  pose proof (partition_sound _ _ _ _ Hclose) as Hr.
  split; [now rewrite Hc, Hr|]. split.
  - intros pre' rest' Hcut.
    destruct (partition_complete _ pre' completion rest' Hcut) as (b0 & r0 & Hp & Hlen).
    rewrite Hopen in Hp. injection Hp as <- <-. exact Hlen.
  - intros block' post' Hcut. rewrite <- Hr in Hcut.
    destruct (partition_complete _ block' rest post' Hcut) as (b0 & r0 & Hp & Hlen).
    rewrite Hclose in Hp. injection Hp as <- <-. exact Hlen.
Qed.

(** X24.  [search_json_block] finds nothing exactly when the completion
    cannot be cut into some text, the opening fence with its line feed,
    a block, a line feed with the closing fence, and some text: a
    completion without the tag, without a line feed after the tag, or
    whose closing fence does not start a line has no block. *)
Theorem search_json_block_none_iff_no_fenced_block (completion : string) :
  search_json_block completion = None <->
  forall pre block post,
    completion <> (pre ++ ("```json" ++ LF) ++ block ++ (LF ++ "```") ++ post)%string.
Proof.
  split.
  - intros Hnone pre block post Hcut. revert Hnone. unfold search_json_block.
    destruct (partition_complete ("```json" ++ LF) pre completion
                (block ++ (LF ++ "```") ++ post)%string Hcut)
      as (pre0 & rest0 & Hopen & Hlen).
    rewrite Hopen.
    pose proof (partition_sound _ _ _ _ Hopen) as Hc.
    rewrite Hcut in Hc. rewrite <- !append_assoc3 in Hc.
    rewrite !append_assoc3 in Hc.
    assert (Hsuffix : exists x, rest0 = (x ++ block ++ (LF ++ "```") ++ post)%string).
    { apply (later_cut_leaves_a_suffix (pre0 ++ ("```json" ++ LF)) (pre ++ ("```json" ++ LF))).
      - rewrite !append_assoc3. symmetry. exact Hc.
      - rewrite !length_append. lia. }
    destruct Hsuffix as [x Hx].
    destruct (partition_complete (LF ++ "```") (x ++ block)%string rest0 post)
      as (b0 & r0 & Hclose & _); [now rewrite append_assoc3|].
    rewrite Hclose. discriminate.
  - intros Hnot. destruct (search_json_block completion) as [block|] eqn:Hsearch;
      [|reflexivity].
    exfalso.
    destruct (search_json_block_cut completion block Hsearch)
      as (pre & post & Hcut).
    exact (Hnot pre block post Hcut).
Qed.

Lemma search_json_block_returns_the_first_block_witness :
  let completion := ("Here you are:" ++ LF ++ "```json" ++ LF ++ "[]" ++ LF ++ "```")%string in
  search_json_block completion = Some "[]" /\
  exists pre post,
    completion = (pre ++ ("```json" ++ LF) ++ "[]" ++ (LF ++ "```") ++ post)%string /\
    (forall pre' rest',
       completion = (pre' ++ ("```json" ++ LF) ++ rest')%string ->
       (String.length pre <= String.length pre')%nat).
Proof.
  intros completion.
  assert (H : search_json_block completion = Some "[]") by (vm_compute; reflexivity).
  split; [exact H|].
  destruct (search_json_block_returns_the_first_block completion "[]" H)
    as (pre & post & Hcut & Hfirst & _).
  exists pre, post. auto.
Defined.

Lemma search_json_block_none_iff_no_fenced_block_witness :
  search_json_block unclosed_block = None /\
  forall pre block post,
    unclosed_block <> (pre ++ ("```json" ++ LF) ++ block ++ (LF ++ "```") ++ post)%string.
Proof.
  assert (H : search_json_block unclosed_block = None) by (vm_compute; reflexivity).
  split; [exact H|].
  exact (proj1 (search_json_block_none_iff_no_fenced_block unclosed_block) H).
Defined.

Lemma extract_video_id_none_iff_no_run_witness :
  extract_video_id "https://example.com/x" = None /\
  forall pre post,
    "https://example.com/x" = (pre ++ post)%string -> id_chars 11 post = None.
Proof.
  assert (H : extract_video_id "https://example.com/x" = None) by reflexivity.
  split; [exact H|].
  exact (proj1 (extract_video_id_none_iff_no_run "https://example.com/x") H).
Defined.

(** ** From a video id to its modules *)

Section FirstCallProperties.

Context (env : Env).

(** X25.  A first call of the modules route for a video that is in no
    cache, whose id has the form of a YouTube id, answers 200 when yt-dlp
    and Whisper both succeed and the duration reported fits the INTEGER
    column of the transcript table (a signed 64-bit integer): the modules
    cover the segments that Whisper returned, in order and once each; the
    transcript and the modules are stored under the id; and the external
    calls are one request to yt-dlp, one download and transcription, and
    one title request per module, in that order. *)
Theorem modules_route_first_call
    (video_id : string) (w : World) (info : YtInfo) (segments : list Segment) :
  let url := ("https://www.youtube.com/watch?v=" ++ video_id)%string in
  video_id <> EmptyString ->
  ytdl_extract_info env (List.length (trace w)) url = Some info ->
  id_chars 11 (yt_id info) = Some (yt_id info) ->
  transcriptions w !! yt_id info = None ->
  course_modules w !! yt_id info = None ->
  whisper_transcribe env (S (List.length (trace w))) url = Some segments ->
  (- 2 ^ 63 <= yt_duration info < 2 ^ 63)%Z ->
  exists ms w',
    modules env video_id w = (Http200 ms, w') /\
    concat (List.map content ms) = segments /\
    (exists video, transcriptions w' !! yt_id info = Some video /\
                   transcript video = segments) /\
    course_modules w' !! yt_id info = Some ms /\
    trace w' = trace w ++ [YtdlExtractInfo url; WhisperTranscribe url]
                       ++ List.map title_request ms.
Proof.
  intros url Hid Hinfo Hform Htmiss Hmmiss Hwhisper Hfits.
  apply fits_sqlite_integer_spec in Hfits.
  unfold modules. rewrite (nonempty_true _ Hid). cbn [negb].
  unfold respond, bind. fold url.
  rewrite transcribe_youtube_video_run. cbv zeta.
  rewrite Hinfo, Htmiss. cbn [trace record_event].
  rewrite List.length_app, Nat.add_1_r, Hwhisper, Hfits.
  set (video := {| vi_title := yt_title info;
                   embed_url := ("https://www.youtube.com/embed/" ++ yt_id info)%string;
                   duration := yt_duration info;
                   transcript := segments |}).
  match goal with
  | |- context [structure_transcript env (Some video) ?w0] => set (w1 := w0)
  end.
  assert (Hkey : extract_video_id (embed_url video) = Some (yt_id info))
    by (apply extract_video_id_of_embed_url; exact Hform).
  assert (Hmiss : module_cache_miss video w1).
  { left. unfold get_cached_modules, bind, get_world, ret. cbn [fst].
    rewrite Hkey. f_equal. exact Hmmiss. }
  destruct (structure_transcript_chunks env video w1 Hmiss)
    as (ms & w' & Hrun & _ & Hcat & _ & _ & Htrace).
  destruct (structure_transcript_run env video w1 Hmiss)
    as (ms' & w'' & Hrun' & _ & _ & Ht & _ & Hstored).
  rewrite Hrun in Hrun'. injection Hrun' as <- <-.
  rewrite Hrun. exists ms, w'.
  split; [reflexivity|]. split; [exact Hcat|].
  split.
  - exists video. split; [|reflexivity]. rewrite Ht.
    cbn [transcriptions w1 set_transcriptions]. apply lookup_insert_eq.
  - split; [exact (Hstored _ Hkey)|].
    rewrite Htrace. cbn [trace w1 set_transcriptions record_event].
    now rewrite <- !List.app_assoc.
Qed.

End FirstCallProperties.

Lemma modules_route_first_call_witness :
  let info := {| yt_id := "test_vid_id"; yt_title := "Test Video"; yt_duration := 120 |} in
  "test_vid_id" <> EmptyString /\
  ytdl_extract_info studio (List.length (trace empty_world)) studio_url = Some info /\
  id_chars 11 (yt_id info) = Some (yt_id info) /\
  transcriptions empty_world !! yt_id info = None /\
  course_modules empty_world !! yt_id info = None /\
  whisper_transcribe studio (S (List.length (trace empty_world))) studio_url
    = Some short_transcript /\
  (- 2 ^ 63 <= yt_duration info < 2 ^ 63)%Z /\
  exists ms w',
    modules studio "test_vid_id" empty_world = (Http200 ms, w') /\
    concat (List.map content ms) = short_transcript /\
    course_modules w' !! yt_id info = Some ms /\
    trace w' = trace empty_world
               ++ [YtdlExtractInfo studio_url; WhisperTranscribe studio_url]
               ++ List.map title_request ms.
Proof.
  intros info.
  assert (Hid : "test_vid_id" <> EmptyString) by discriminate.
  assert (Hinfo : ytdl_extract_info studio (List.length (trace empty_world)) studio_url
                  = Some info) by reflexivity.
  assert (Hform : id_chars 11 (yt_id info) = Some (yt_id info)) by reflexivity.
  assert (Ht : transcriptions empty_world !! yt_id info = None) by reflexivity.
  assert (Hm : course_modules empty_world !! yt_id info = None) by reflexivity.
  assert (Hw : whisper_transcribe studio (S (List.length (trace empty_world))) studio_url
               = Some short_transcript) by reflexivity.
  split; [exact Hid|]. split; [exact Hinfo|]. split; [exact Hform|].
  assert (Hfits : (- 2 ^ 63 <= yt_duration info < 2 ^ 63)%Z) by (simpl; lia).
  split; [exact Ht|]. split; [exact Hm|]. split; [exact Hw|]. split; [exact Hfits|].
  destruct (modules_route_first_call studio "test_vid_id" empty_world info
              short_transcript Hid Hinfo Hform Ht Hm Hw Hfits)
    as (ms & w' & Hrun & Hcat & _ & Hstored & Htrace).
  exists ms, w'. auto.
Defined.

Section FirstAndLast.

Context (env : Env).


End FirstAndLast.

